(** * KU SG 2.45 250 A microwave generator driver: command/acknowledgement
      protocol, typed accessors and compound operations.

    Shallow embedding of
    [pymeasure/instruments/kuhneelectronic/kusg245_250a.py].

    Conventions.
    - Command strings are [string]; received bytes are [list byte].
    - Integer-valued parameters (power, frequency, reflection limit) are [Z],
      as the accessors' docstrings declare them.  Python floats (the phase
      shift in degrees, the rail voltages) are modelled by the exact rational
      [Q] they denote.
    - The getters [version], [temperature], [power_setpoint], [pulse_width]
      and [off_time] are modelled as exchanges only: their replies go
      through the property framework's own conversion, which is not among
      the sources.
    - The instrument object is a record holding the serial connection and
      the per-instance configuration; every method is a function from the
      instrument to a result and the instrument afterwards, so that what
      was written before an exception is still observable. *)

From Stdlib Require Import ZArith QArith Qround List String Ascii Lia Bool.
From Stdlib Require Import DecimalString HexadecimalString.
From Stdlib.Strings Require Import Byte.
Import ListNotations.

Local Open Scope Z_scope.
Local Open Scope list_scope.

(* ===================================================================== *)
(** * Python built-ins the driver relies on *)
(* ===================================================================== *)

Module Py.

(** Exceptions the driver or the built-ins it calls can raise. *)
Inductive exn : Type :=
| ConnectionError (msg : string)
| KeyError (key : Z)
| IndexError
| ValueError
| AssertionError
| VisaTimeout.

Inductive result (A : Type) : Type :=
| Ok (a : A)
| Raise (e : exn).
Arguments Ok {A} a.
Arguments Raise {A} e.

Inductive byteorder : Type := Little | Big.

(** Big-endian unsigned value of a byte string, most significant first. *)
Fixpoint from_bytes_acc (acc : Z) (bs : list byte) : Z :=
  match bs with
  | [] => acc
  | b :: bs' => from_bytes_acc (acc * 256 + Z.of_N (Byte.to_N b)) bs'
  end.

(** [int.from_bytes(bs, byteorder)], unsigned. *)
Definition int_from_bytes (bs : list byte) (order : byteorder) : Z :=
  match order with
  | Big => from_bytes_acc 0 bs
  | Little => from_bytes_acc 0 (rev bs)
  end.

(** The value of the [byteorder] argument when a call leaves it out
    (CPython 3.11 and later: [int.from_bytes(bytes, byteorder='big')]). *)
Definition default_byteorder : byteorder := Big.

(** [bool.from_bytes(bs, byteorder)]: the integer, then its truth value. *)
Definition bool_from_bytes (bs : list byte) (order : byteorder) : bool :=
  negb (int_from_bytes bs order =? 0).

(** [b[-1]] on a bytes object. *)
Definition last_byte (b : list byte) : result byte :=
  match rev b with
  | [] => Raise IndexError
  | x :: _ => Ok x
  end.

(** [b[0]] on a bytes object: the integer value of the first byte. *)
Definition first_byte (b : list byte) : result Z :=
  match b with
  | [] => Raise IndexError
  | x :: _ => Ok (Z.of_N (Byte.to_N x))
  end.

(** [hex(n)] for a non-negative integer: lower case, no padding. *)
Definition hex (n : N) : string :=
  ("0x" ++ HexadecimalString.NilZero.string_of_uint (N.to_hex_uint n))%string.

(** [str(n)] for a non-negative integer. *)
Definition decimal (n : N) : string :=
  DecimalString.NilZero.string_of_uint (N.to_uint n).

Fixpoint zeros (n : nat) : string :=
  match n with
  | O => EmptyString
  | S n' => String "0" (zeros n')
  end.

(** ["%0<width>d" % z] and [f"{z:0<width>d}"] on an integer: the sign
    counts in the width, a longer number is never cut. *)
Definition format_0d (width : nat) (z : Z) : string :=
  let digits := decimal (Z.to_N (Z.abs z)) in
  let sign := if z <? 0 then "-"%string else EmptyString in
  (sign ++ zeros (width - String.length sign - String.length digits)
        ++ digits)%string.

(** [s.endswith(suffix)]. *)
Definition endswith (s suffix : string) : bool :=
  let n := String.length s in
  let m := String.length suffix in
  (m <=? n)%nat && String.eqb (substring (n - m) m s) suffix.

(** [s[:-k]]. *)
Definition drop_last (k : nat) (s : string) : string :=
  substring 0 (String.length s - k) s.

(** ASCII white space, as [str.strip] and [int] skip it. *)
Definition is_space (c : ascii) : bool :=
  let n := nat_of_ascii c in
  (Nat.leb 9 n && Nat.leb n 13) || (Nat.leb 28 n && Nat.leb n 32).

Definition is_digit (c : ascii) : bool :=
  let n := nat_of_ascii c in Nat.leb 48 n && Nat.leb n 57.

Fixpoint lstrip (s : string) : string :=
  match s with
  | String c s' => if is_space c then lstrip s' else s
  | EmptyString => EmptyString
  end.

Fixpoint reverse (acc s : string) : string :=
  match s with
  | String c s' => reverse (String c acc) s'
  | EmptyString => acc
  end.

(** [s.strip()]. *)
Definition strip (s : string) : string :=
  reverse EmptyString (lstrip (reverse EmptyString (lstrip s))).

(** The digits of a decimal literal in which single underscores may stand
    between digits; [None] when the literal is empty or an underscore
    stands first, last or next to another. *)
Fixpoint grouped_digits (after_digit : bool) (s : string) : option string :=
  match s with
  | EmptyString => if after_digit then Some EmptyString else None
  | String c s' =>
      if is_digit c
      then option_map (String c) (grouped_digits true s')
      else if Ascii.eqb c "_"
           then (if after_digit then grouped_digits false s' else None)
           else None
  end.

(** [int(s)] on an ASCII string: white space around is skipped, one sign
    may stand first, the digits may be grouped by single underscores;
    anything else is a [ValueError]. *)
Definition int_of_str (s : string) : result Z :=
  let t := strip s in
  let (negative, body) :=
    match t with
    | String c t' =>
        if Ascii.eqb c "-" then (true, t')
        else if Ascii.eqb c "+" then (false, t')
        else (false, t)
    | EmptyString => (false, t)
    end in
  match grouped_digits false body with
  | Some digits =>
      match DecimalString.NilZero.uint_of_string digits with
      | Some d => Ok (if negative then - Z.of_uint d else Z.of_uint d)
      | None => Raise ValueError
      end
  | None => Raise ValueError
  end.

(** [round(v, ndigits)] on an [int]: for negative [ndigits] the nearest
    multiple of [10 ** -ndigits], a tie going to the even multiple;
    the value itself otherwise. *)
Definition round_int (v : Z) (ndigits : Z) : Z :=
  if 0 <=? ndigits then v
  else
    let p := 10 ^ (- ndigits) in
    let q := v / p in
    let r := v mod p in
    if (p <? 2 * r) || ((2 * r =? p) && Z.odd q)
    then (q + 1) * p
    else q * p.

(** [round(x)] on a number: the nearest integer, a tie going to the
    even one. *)
Definition round (x : Q) : Z :=
  let f := Qfloor x in
  let d := (x - inject_Z f)%Q in
  match (d ?= 1 # 2)%Q with
  | Lt => f
  | Gt => f + 1
  | Eq => if Z.even f then f else f + 1
  end.

(** [int(x)] on a float: truncation towards zero. *)
Definition int_of_float (x : Q) : Z :=
  Z.quot (Qnum x) (Z.pos (Qden x)).

End Py.
Import Py.

(* ===================================================================== *)
(** * The serial connection and the instrument object *)
(* ===================================================================== *)

(** What the driver does on its adapter, in program order. *)
Inductive event : Type :=
| EvWrite (command : string)   (* adapter.write(command); the terminator follows on the wire *)
| EvRead                       (* read(): one reply token, up to the terminator *)
| EvReadBytes (count : nat)    (* read_bytes(count) *)
| EvSleep (milliseconds : Z).  (* time.sleep *)

(** Modelled from the spec: the adapter and the [Instrument] base class
    ([pymeasure/adapters], [pymeasure/instruments/common_base.py]) are not
    among the sources.  The connection is an ordered byte stream with the
    single termination byte '\r' for both directions; [inbuf] is what the
    device sends, in order, and [log] what the driver did so far. *)
Record connection : Type := {
  inbuf : list byte;
  log : list event
}.

Record Kusg245_250A : Type := {
  adapter : connection;
  _power_limit : Z;
  power_setpoint_values : list Z
}.

(** A method: runs on the instrument, returns a value or raises, and leaves
    the instrument (with its connection) behind. *)
Definition M (A : Type) : Type := Kusg245_250A -> result A * Kusg245_250A.

Definition ret {A} (a : A) : M A := fun self => (Ok a, self).

Definition raise {A} (e : exn) : M A := fun self => (Raise e, self).

Definition bind {A B} (m : M A) (k : A -> M B) : M B :=
  fun self =>
    match m self with
    | (Ok a, self') => k a self'
    | (Raise e, self') => (Raise e, self')
    end.

Definition lift {A} (r : result A) : M A := fun self => (r, self).

Notation "x <- m ;; k" := (bind m (fun x => k))
  (at level 61, m at next level, right associativity).
Notation "m ;; k" := (bind m (fun _ => k))
  (at level 61, right associativity).

Definition with_adapter (self : Kusg245_250A) (c : connection) : Kusg245_250A :=
  {| adapter := c;
     _power_limit := _power_limit self;
     power_setpoint_values := power_setpoint_values self |}.

Definition emit (e : event) (c : connection) : connection :=
  {| inbuf := inbuf c; log := log c ++ [e] |}.

(** The module's [termination_character], the carriage return, as the byte
    it encodes to. *)
Definition termination_character : byte := x0d.

(** Modelled from the spec: [self.adapter.write(command)] sends the command
    (the adapter appends the write termination). *)
Definition adapter_write (command : string) : M unit :=
  fun self => (Ok tt, with_adapter self (emit (EvWrite command) (adapter self))).

(** The bytes up to the first terminator, and what follows it. *)
Fixpoint split_token (buf : list byte) : option (list byte * list byte) :=
  match buf with
  | [] => None
  | x :: xs =>
      if Byte.eqb x termination_character then Some ([], xs)
      else match split_token xs with
           | Some (tok, rest) => Some (x :: tok, rest)
           | None => None
           end
  end.

(** Modelled from the spec: [self.read()] returns the next reply token, up
    to the read termination and without it; the read times out when the
    device sends no terminated reply. *)
Definition read : M string :=
  fun self =>
    let c := emit EvRead (adapter self) in
    match split_token (inbuf c) with
    | Some (tok, rest) =>
        (Ok (string_of_list_byte tok),
         with_adapter self {| inbuf := rest; log := log c |})
    | None => (Raise VisaTimeout, with_adapter self c)
    end.

(** Modelled from the spec: [self.read_bytes(count)] returns exactly
    [count] bytes, whatever they are, and times out when fewer arrive. *)
Definition read_bytes (count : nat) : M (list byte) :=
  fun self =>
    let c := emit (EvReadBytes count) (adapter self) in
    if (count <=? List.length (inbuf c))%nat
    then (Ok (firstn count (inbuf c)),
          with_adapter self {| inbuf := skipn count (inbuf c); log := log c |})
    else (Raise VisaTimeout, with_adapter self c).

(** [time.sleep(seconds)], recorded in milliseconds. *)
Definition sleep (milliseconds : Z) : M unit :=
  fun self => (Ok tt, with_adapter self (emit (EvSleep milliseconds) (adapter self))).

(* ===================================================================== *)
(** * Module-level definitions of the driver *)
(* ===================================================================== *)

Definition byteorder : Py.byteorder := Little.

Definition reflection_limit_map : list (Z * Z) :=
  [(0, 0); (1, 100); (2, 150); (3, 180); (4, 200); (5, 230)].

Definition _has_correct_termination_character (b : list byte) : result bool :=
  match last_byte b with
  | Ok x => Ok (Byte.eqb x termination_character)
  | Raise e => Raise e
  end.

Definition _err_msg_invalid_termination_character (b : list byte) : result string :=
  match last_byte b with
  | Ok x => Ok ("Invalid termination character received: " ++ hex (Byte.to_N x))%string
  | Raise e => Raise e
  end.

Definition _is_expecting_acknowledgement (command : string) : bool :=
  if existsb (String.eqb command) ["v"; "5"; "8"; "6"; "7"; "T"]%string then false
  else if endswith command "?" then false
  else true.

(** [Kusg245_250A.write]. *)
Definition write (command : string) : M unit :=
  adapter_write command ;;
  if _is_expecting_acknowledgement command then
    reply <- read ;;
    if String.eqb reply "A" then ret tt
    else raise (ConnectionError "Expected acknowledgment.")
  else ret tt.

(* ===================================================================== *)
(** * Validators and the declarative property framework *)
(* ===================================================================== *)

Module Validators.

Section Ordered.
Variable T : Type.
Variable leb : T -> T -> bool.

(** [min(values)] and [max(values)]; empty input is a [ValueError]. *)
Definition min_of (values : list T) : result T :=
  match values with
  | [] => Raise ValueError
  | v :: vs => Ok (fold_left (fun m x => if leb m x then m else x) vs v)
  end.

Definition max_of (values : list T) : result T :=
  match values with
  | [] => Raise ValueError
  | v :: vs => Ok (fold_left (fun m x => if leb x m then m else x) vs v)
  end.

(** Modelled from the spec: [truncated_range] of
    [pymeasure/instruments/validators.py] is not among the sources.  The
    spec has the value "truncated to" (clamped into) the closed range
    spanned by [values]: the value itself inside the range, the upper
    bound above it, the lower bound below it. *)
Definition truncated_range (value : T) (values : list T) : result T :=
  match min_of values, max_of values with
  | Ok lo, Ok hi =>
      if leb lo value && leb value hi then Ok value
      else if negb (leb value hi) then Ok hi
      else Ok lo
  | Raise e, _ | _, Raise e => Raise e
  end.

Fixpoint insert_sorted (x : T) (l : list T) : list T :=
  match l with
  | [] => [x]
  | y :: l' => if leb x y then x :: l else y :: insert_sorted x l'
  end.

Definition sorted (l : list T) : list T := fold_right insert_sorted [] l.

(** [l[-1]]. *)
Definition last_of (l : list T) : result T :=
  match rev l with
  | [] => Raise IndexError
  | x :: _ => Ok x
  end.

(** Modelled from the spec: [truncated_discrete_set] of
    [pymeasure/instruments/validators.py] is not among the sources.  The
    spec (section 7) has set values truncated per parameter rather than
    rejected; the validator the driver names for the reflection limit is
    the truncating one of the library (its sibling [strict_discrete_set]
    is the rejecting one): the value itself when it is in the set,
    otherwise the smallest member above it, and the largest member when
    there is none above. *)
Definition truncated_discrete_set (value : T) (values : list T) : result T :=
  let vs := sorted values in
  match find (fun v => leb value v) vs with
  | Some v => Ok v
  | None => last_of vs
  end.

End Ordered.

End Validators.
Import Validators.

(** Python [dict] objects of the driver, as insertion-ordered association
    lists with unique keys. *)
Definition dict_get (d : list (Z * Z)) (key : Z) : result Z :=
  match find (fun kv => fst kv =? key) d with
  | Some kv => Ok (snd kv)
  | None => Raise (KeyError key)
  end.

Fixpoint dict_set (d : list (Z * Z)) (key value : Z) : list (Z * Z) :=
  match d with
  | [] => [(key, value)]
  | (k, v) :: d' =>
      if k =? key then (k, value) :: d' else (k, v) :: dict_set d' key value
  end.

Definition dict_values (d : list (Z * Z)) : list Z := map snd d.

(** [{v: k for k, v in d.items()}]. *)
Definition dict_inverse (d : list (Z * Z)) : list (Z * Z) :=
  fold_left (fun acc kv => dict_set acc (snd kv) (fst kv)) d [].

(** Modelled from the spec: [Instrument.control] of
    [pymeasure/instruments/common_base.py] is not among the sources.  A set
    validates the value against the property's values (for a dynamic
    property the instance's own [<name>_values]), applies [set_process],
    formats the set command with the result and sends it with the
    instrument's [write]. *)
Definition control_set (set_command : Z -> string)
    (validator : Z -> list Z -> result Z) (values : Kusg245_250A -> list Z)
    (set_process : Z -> Z) (value : Z) : M unit :=
  fun self =>
    (value' <- lift (validator value (values self)) ;;
     write (set_command (set_process value'))) self.

(** Modelled from the spec: a get of an [Instrument.control] sends the query
    with the instrument's [write], reads one reply and hands it to
    [get_process] (a reply that is not a number reaches it as a string). *)
Definition control_get {A} (get_command : string)
    (get_process : string -> result A) : M A :=
  write get_command ;;
  reply <- read ;;
  lift (get_process reply).

(* ===================================================================== *)
(** * The instrument class *)
(* ===================================================================== *)

Definition __init__ (conn : connection) (power_limit : Z) : result Kusg245_250A :=
  if (0 <? power_limit) && (power_limit <=? 250)
  then Ok {| adapter := conn;
             _power_limit := power_limit;
             power_setpoint_values := [0; power_limit] |}
  else Raise AssertionError.

(** [raise ConnectionError(_err_msg_invalid_termination_character(b))],
    the last line of every binary-response accessor. *)
Definition invalid_termination {A} (b : list byte) : M A :=
  msg <- lift (_err_msg_invalid_termination_character b) ;;
  raise (ConnectionError msg).

Definition voltage_5v : M Q :=
  write "5" ;;
  b <- read_bytes 3 ;;
  ok <- lift (_has_correct_termination_character b) ;;
  if ok
  then ret (103 / 4700 * inject_Z (int_from_bytes (firstn 2 b) default_byteorder))%Q
  else invalid_termination b.

Definition voltage_32v : M Q :=
  write "8" ;;
  b <- read_bytes 3 ;;
  ok <- lift (_has_correct_termination_character b) ;;
  if ok
  then ret (1282 / 8200 * inject_Z (int_from_bytes (firstn 2 b) default_byteorder))%Q
  else invalid_termination b.

Definition power_forward : M Z :=
  write "6" ;;
  b <- read_bytes 2 ;;
  ok <- lift (_has_correct_termination_character b) ;;
  if ok then ret (int_from_bytes (firstn 1 b) default_byteorder)
  else invalid_termination b.

Definition power_reverse : M Z :=
  write "7" ;;
  b <- read_bytes 2 ;;
  ok <- lift (_has_correct_termination_character b) ;;
  if ok then ret (int_from_bytes (firstn 1 b) default_byteorder)
  else invalid_termination b.

Definition external_enabled : M bool :=
  write "r?" ;;
  b <- read_bytes 2 ;;
  ok <- lift (_has_correct_termination_character b) ;;
  if ok then ret (bool_from_bytes (firstn 1 b) default_byteorder)
  else invalid_termination b.

Definition set_external_enabled (value : bool) : M unit :=
  if value then write "R" else write "r".

Definition bias_enabled : M bool :=
  write "x?" ;;
  b <- read_bytes 2 ;;
  ok <- lift (_has_correct_termination_character b) ;;
  if ok then ret (bool_from_bytes (firstn 1 b) default_byteorder)
  else invalid_termination b.

Definition set_bias_enabled (value : bool) : M unit :=
  if value then write "X" else write "x".

Definition rf_enabled : M bool :=
  write "o?" ;;
  b <- read_bytes 2 ;;
  ok <- lift (_has_correct_termination_character b) ;;
  if ok then ret (bool_from_bytes (firstn 1 b) default_byteorder)
  else invalid_termination b.

Definition set_rf_enabled (value : bool) : M unit :=
  if value then write "O" else write "o".

Definition pulse_mode_enabled : M bool :=
  write "p?" ;;
  b <- read_bytes 2 ;;
  ok <- lift (_has_correct_termination_character b) ;;
  if ok then ret (bool_from_bytes (firstn 1 b) default_byteorder)
  else invalid_termination b.

Definition set_pulse_mode_enabled (value : bool) : M unit :=
  if value then write "P" else write "p".

(** [frequency_fine]: ["f?"], ["f%07d"], [truncated_range] over
    [[2400000, 2500000]], [set_process = round(v, -1)]. *)
Definition frequency_fine_get_process (v : string) : result (option Z) :=
  if endswith v "kHz"
  then match int_of_str (drop_last 3 v) with
       | Ok n => Ok (Some n)
       | Raise e => Raise e
       end
  else Ok None.

Definition frequency_fine : M (option Z) :=
  control_get "f?" frequency_fine_get_process.

Definition set_frequency_fine (value : Z) : M unit :=
  control_set (fun v => ("f" ++ format_0d 7 v)%string)
    (truncated_range Z Z.leb) (fun _ => [2400000; 2500000])
    (fun v => round_int v (-1)) value.

(** [power_setpoint]: ["A?"], ["A%03d"], [truncated_range], [dynamic=True]:
    the range is the instance's [power_setpoint_values], which [__init__]
    sets to [[0, power_limit]] in place of the class-level [[0, 250]]. *)
Definition set_power_setpoint (value : Z) : M unit :=
  control_set (fun v => ("A" ++ format_0d 3 v)%string)
    (truncated_range Z Z.leb) power_setpoint_values
    (fun v => v) value.

Definition phase_shift : M Q :=
  write "H?" ;;
  b <- read_bytes 2 ;;
  ok <- lift (_has_correct_termination_character b) ;;
  if ok
  then ret (inject_Z (int_from_bytes (firstn 1 b) default_byteorder) / 256 * 360)%Q
  else invalid_termination b.

Definition set_phase_shift (value : Q) : M unit :=
  clamped <- lift (truncated_range Q Qle_bool value [0; 358.6]%Q) ;;
  let value := int_of_float (inject_Z (round clamped) / 360 * 256)%Q in
  write ("H" ++ format_0d 3 value)%string.

Definition reflection_limit : M Z :=
  write "B?" ;;
  b <- read_bytes 2 ;;
  ok <- lift (_has_correct_termination_character b) ;;
  if ok
  then code <- lift (first_byte b) ;; lift (dict_get reflection_limit_map code)
  else invalid_termination b.

Definition set_reflection_limit (value : Z) : M unit :=
  value <- lift (truncated_discrete_set Z Z.leb value (dict_values reflection_limit_map)) ;;
  let inv_reflection_limit_map := dict_inverse reflection_limit_map in
  value <- lift (dict_get inv_reflection_limit_map value) ;;
  write ("B" ++ format_0d 0 value)%string.

Definition tune (power : Z) : M unit :=
  fun self =>
    (power <- lift (truncated_range Z Z.leb power [0; _power_limit self]) ;;
     write ("b" ++ format_0d 3 power)%string) self.

Definition clear_VSWR_error : M unit := write "z".

Definition store_settings : M unit := write "SE".

Definition shutdown : M unit :=
  set_rf_enabled false ;;
  set_bias_enabled false.

Definition turn_on : M unit :=
  set_bias_enabled true ;;
  sleep 500 ;;
  set_rf_enabled true.

(* ===================================================================== *)
(** * Further accessors of the instrument class *)
(* ===================================================================== *)

(** Modelled from the spec: [Instrument.control] as in [control_set], for a
    [set_process] whose result is of another type than the validated
    integer (a float). *)
Definition control_set_as {V} (set_command : V -> string)
    (validator : Z -> list Z -> result Z) (values : Kusg245_250A -> list Z)
    (set_process : Z -> V) (value : Z) : M unit :=
  fun self =>
    (value' <- lift (validator value (values self)) ;;
     write (set_command (set_process value'))) self.

(** [frequency_coarse]: ["f?"], ["f%04d"], [truncated_range] over
    [[2400, 2500]], no [set_process]. *)
Definition frequency_coarse_get_process (v : string) : result (option Z) :=
  if endswith v "MHz"
  then match int_of_str (drop_last 3 v) with
       | Ok n => Ok (Some n)
       | Raise e => Raise e
       end
  else Ok None.

Definition frequency_coarse : M (option Z) :=
  control_get "f?" frequency_coarse_get_process.

Definition set_frequency_coarse (value : Z) : M unit :=
  control_set (fun v => ("f" ++ format_0d 4 v)%string)
    (truncated_range Z Z.leb) (fun _ => [2400; 2500])
    (fun v => v) value.

(** [lambda v: round(2 * v, -1) / 2], the [set_process] of [pulse_width]
    and [off_time]: the true division makes the result a float. *)
Definition pulse_set_process (v : Z) : Q :=
  (inject_Z (round_int (2 * v) (-1)) / 2)%Q.

(** ["<letter>%04d" % x] on a float [x]: the float is cut to an integer
    first. *)
Definition pulse_command (letter : ascii) (x : Q) : string :=
  String letter (format_0d 4 (int_of_float x)).

(** [pulse_width]: ["C?"], ["C%04d"], [truncated_range] over [[10, 1000]]. *)
Definition set_pulse_width (value : Z) : M unit :=
  control_set_as (pulse_command "C")
    (truncated_range Z Z.leb) (fun _ => [10; 1000])
    pulse_set_process value.

(** [off_time]: ["c?"], ["c%04d"], [truncated_range] over [[10, 1000]]. *)
Definition set_off_time (value : Z) : M unit :=
  control_set_as (pulse_command "c")
    (truncated_range Z Z.leb) (fun _ => [10; 1000])
    pulse_set_process value.

(** ** Powers given as any Python number *)

(** A Python number: an [int] or a [float]. *)
Inductive number : Type :=
| Int (z : Z)
| Float (q : Q).

Definition number_value (x : number) : Q :=
  match x with
  | Int z => inject_Z z
  | Float q => q
  end.

(** [x <= y] between numbers of either type. *)
Definition number_leb (x y : number) : bool :=
  Qle_bool (number_value x) (number_value y).

(** [f"{x:03d}"]: the format code 'd' is for an [int]; on a [float] it is
    a [ValueError]. *)
Definition format_03d (x : number) : result string :=
  match x with
  | Int z => Ok (format_0d 3 z)
  | Float _ => Raise ValueError
  end.

(** ["%03d" % x]: a [float] is cut to an integer first. *)
Definition percent_03d (x : number) : string :=
  match x with
  | Int z => format_0d 3 z
  | Float q => format_0d 3 (int_of_float q)
  end.

(** Modelled from the spec: [Instrument.control] as in [control_set], for
    values of any type. *)
Definition control_set_of {T V} (set_command : V -> string)
    (validator : T -> list T -> result T) (values : Kusg245_250A -> list T)
    (set_process : T -> V) (value : T) : M unit :=
  fun self =>
    (value' <- lift (validator value (values self)) ;;
     write (set_command (set_process value'))) self.

(** [tune] on a power of either type: the value is truncated, then
    formatted, then sent.  On an [int] this is [tune]. *)
Definition tune_number (power : number) : M unit :=
  fun self =>
    (power <- lift (truncated_range number number_leb power
                      [Int 0; Int (_power_limit self)]) ;;
     payload <- lift (format_03d power) ;;
     write ("b" ++ payload)%string) self.

(** The [power_setpoint] setter on a value of either type.  On an [int]
    this is [set_power_setpoint]. *)
Definition set_power_setpoint_number (value : number) : M unit :=
  control_set_of (fun v => ("A" ++ percent_03d v)%string)
    (truncated_range number number_leb)
    (fun self => map Int (power_setpoint_values self))
    (fun v => v) value.

(** ** The remaining accessors *)

(** Modelled from the spec: [strict_discrete_set] of
    [pymeasure/instruments/validators.py] is not among the sources: the
    value itself when it is one of [values], a [ValueError] otherwise. *)
Definition strict_discrete_set {T} (eqb : T -> T -> bool)
    (value : T) (values : list T) : result T :=
  if existsb (eqb value) values then Ok value else Raise ValueError.

(** [freq_steps_fine_enabled]: of the definitions in the class body the
    last one, the [Instrument.control], is the one the name is bound to:
    ["fm?"], ["fm%d"], [strict_discrete_set] over [[False, True]],
    [set_process = {True: 1, False: 0}[v]],
    [get_process = bool.from_bytes(v.encode(encoding), byteorder)]. *)
Definition freq_steps_fine_enabled : M bool :=
  control_get "fm?"
    (fun v => Ok (bool_from_bytes (list_byte_of_string v) byteorder)).

Definition set_freq_steps_fine_enabled (value : bool) : M unit :=
  control_set_of (fun v => ("fm" ++ format_0d 0 v)%string)
    (strict_discrete_set Bool.eqb) (fun _ => [false; true])
    (fun v : bool => if v then 1 else 0) value.

(** Modelled from the spec: the exchange of a get whose reply the property
    framework converts by itself (an [Instrument.measurement], or an
    [Instrument.control] without [get_process]): the query goes out with
    the instrument's [write] and one reply is read.  The value here is the
    reply as it arrived; what the framework converts it to is not
    modelled. *)
Definition raw_query (query : string) : M string :=
  control_get query (fun v => Ok v).

Definition version : M string := raw_query "v".

Definition temperature : M string := raw_query "T".

Definition power_setpoint : M string := raw_query "A?".

Definition pulse_width : M string := raw_query "C?".

Definition off_time : M string := raw_query "c?".

(** ** Sessions: what a caller can do with an instrument *)

(** The operations of the class, with their arguments; a power can be
    given as an [int] or as a [float]. *)
Inductive operation : Type :=
| GetVoltage5v | GetVoltage32v | GetPowerForward | GetPowerReverse
| GetExternalEnabled | SetExternalEnabled (value : bool)
| GetBiasEnabled | SetBiasEnabled (value : bool)
| GetRfEnabled | SetRfEnabled (value : bool)
| GetPulseModeEnabled | SetPulseModeEnabled (value : bool)
| GetFrequencyCoarse | SetFrequencyCoarse (value : Z)
| GetFrequencyFine | SetFrequencyFine (value : Z)
| SetPowerSetpoint (value : Z)
| SetPulseWidth (value : Z) | SetOffTime (value : Z)
| GetPhaseShift | SetPhaseShift (value : Q)
| GetReflectionLimit | SetReflectionLimit (value : Z)
| Tune (power : Z)
| ClearVSWRError | StoreSettings | Shutdown | TurnOn
| GetVersion | GetTemperature
| GetFreqStepsFineEnabled | SetFreqStepsFineEnabled (value : bool)
| GetPowerSetpoint | GetPulseWidth | GetOffTime
| SetPowerSetpointFloat (value : Q) | TuneFloat (power : Q).

(** A call whose returned value the caller drops; an exception stays. *)
Definition discard {A} (m : M A) : M unit :=
  fun self =>
    match m self with
    | (Ok _, self') => (Ok tt, self')
    | (Raise e, self') => (Raise e, self')
    end.

Definition perform (op : operation) : M unit :=
  match op with
  | GetVoltage5v => discard voltage_5v
  | GetVoltage32v => discard voltage_32v
  | GetPowerForward => discard power_forward
  | GetPowerReverse => discard power_reverse
  | GetExternalEnabled => discard external_enabled
  | SetExternalEnabled value => set_external_enabled value
  | GetBiasEnabled => discard bias_enabled
  | SetBiasEnabled value => set_bias_enabled value
  | GetRfEnabled => discard rf_enabled
  | SetRfEnabled value => set_rf_enabled value
  | GetPulseModeEnabled => discard pulse_mode_enabled
  | SetPulseModeEnabled value => set_pulse_mode_enabled value
  | GetFrequencyCoarse => discard frequency_coarse
  | SetFrequencyCoarse value => set_frequency_coarse value
  | GetFrequencyFine => discard frequency_fine
  | SetFrequencyFine value => set_frequency_fine value
  | SetPowerSetpoint value => set_power_setpoint value
  | SetPulseWidth value => set_pulse_width value
  | SetOffTime value => set_off_time value
  | GetPhaseShift => discard phase_shift
  | SetPhaseShift value => set_phase_shift value
  | GetReflectionLimit => discard reflection_limit
  | SetReflectionLimit value => set_reflection_limit value
  | Tune power => tune power
  | ClearVSWRError => clear_VSWR_error
  | StoreSettings => store_settings
  | Shutdown => shutdown
  | TurnOn => turn_on
  | GetVersion => discard version
  | GetTemperature => discard temperature
  | GetFreqStepsFineEnabled => discard freq_steps_fine_enabled
  | SetFreqStepsFineEnabled value => set_freq_steps_fine_enabled value
  | GetPowerSetpoint => discard power_setpoint
  | GetPulseWidth => discard pulse_width
  | GetOffTime => discard off_time
  | SetPowerSetpointFloat value => set_power_setpoint_number (Float value)
  | TuneFloat power => tune_number (Float power)
  end.

(** A caller's session: the operations in order, each on the instrument
    the previous one left, whether it raised or not (the caller catches
    the exception and goes on). *)
Definition session (ops : list operation) (self : Kusg245_250A) : Kusg245_250A :=
  fold_left (fun s op => snd (perform op s)) ops self.

(* ===================================================================== *)
(** * Vocabulary of the properties *)
(* ===================================================================== *)

(** The acknowledgement reply of the device on the wire: 'A' and the
    terminator. *)
Definition ack : list byte := [x41; termination_character].

(** An instrument as [__init__] leaves it, on a connection whose device
    will send [incoming] and on which nothing happened yet. *)
Definition instrument (incoming : list byte) (power_limit : Z) : Kusg245_250A :=
  {| adapter := {| inbuf := incoming; log := [] |};
     _power_limit := power_limit;
     power_setpoint_values := [0; power_limit] |}.

(** What a method call added to the adapter's log. *)
Definition new_events (before after : Kusg245_250A) : list event :=
  skipn (List.length (log (adapter before))) (log (adapter after)).

(** The commands a list of events put on the wire, in order. *)
Fixpoint written (evs : list event) : list string :=
  match evs with
  | [] => []
  | EvWrite command :: evs' => command :: written evs'
  | _ :: evs' => written evs'
  end.

(** How many reply tokens a list of events read. *)
Fixpoint tokens_read (evs : list event) : nat :=
  match evs with
  | [] => O
  | EvRead :: evs' => S (tokens_read evs')
  | _ :: evs' => tokens_read evs'
  end.

(** The acknowledgement rule in the spec's words: the allow-list of
    single-character commands, or a trailing question mark. *)
Definition query_like (command : string) : bool :=
  existsb (String.eqb command) ["v"; "5"; "8"; "6"; "7"; "T"]%string
  || endswith command "?".

(** The framing error for an offending last byte [x]. *)
Definition framing_error (x : byte) : exn :=
  ConnectionError ("Invalid termination character received: " ++ hex (Byte.to_N x))%string.

Definition protocol_violation : exn := ConnectionError "Expected acknowledgment.".

Definition digit (d : Z) : ascii := ascii_of_nat (48 + Z.to_nat d).

(** The 3-digit zero-padded decimal numeral of [n]. *)
Definition digits3 (n : Z) : string :=
  String (digit (n / 100)) (String (digit (n / 10 mod 10))
    (String (digit (n mod 10)) EmptyString)).

(** Clamping into [[lo, hi]]. *)
Definition clamp (lo hi v : Z) : Z := Z.max lo (Z.min v hi).

(** The device code the reflection-limit setter transmits for [value]. *)
Definition reflection_code (value : Z) : Z :=
  if value <=? 0 then 0
  else if value <=? 100 then 1
  else if value <=? 150 then 2
  else if value <=? 180 then 3
  else if value <=? 200 then 4
  else 5.

(** The phase code in the spec's words: [round(value / 360 * 256)] of the
    value truncated to [[0, 358.6]]. *)
Definition phase_code_spec (value : Q) : Z :=
  let v := if Qle_bool value 0 then 0%Q
           else if Qle_bool value 358.6 then value else 358.6%Q in
  round (v / 360 * 256)%Q.

(** A binary-response accessor [m] that queried with [query], read [count]
    bytes and stopped on the framing error for the offending byte [x]: no
    value is returned, the configuration of the instrument is what it was,
    and the connection holds [rest]. *)
Definition raises_framing_error {A} (m : M A) (self : Kusg245_250A)
    (query : string) (count : nat) (x : byte) (rest : list byte) : Prop :=
  let (r, self') := m self in
  r = Raise (framing_error x) /\
  _power_limit self' = _power_limit self /\
  power_setpoint_values self' = power_setpoint_values self /\
  inbuf (adapter self') = rest /\
  new_events self self' = [EvWrite query; EvReadBytes count].

(** Whether the next reply token of the device is the acknowledgement. *)
Definition acknowledged (self : Kusg245_250A) : bool :=
  match split_token (inbuf (adapter self)) with
  | Some (tok, _) => String.eqb (string_of_list_byte tok) "A"
  | None => false
  end.

(** The integers [lo], [lo + 1], ..., [lo + n - 1]. *)
Definition zrange (lo : Z) (n : nat) : list Z :=
  map (fun i => lo + Z.of_nat i) (seq 0 n).

(** The instrument [self] at the moment its device is about to send
    [incoming]. *)
Definition receiving (self : Kusg245_250A) (incoming : list byte) : Kusg245_250A :=
  with_adapter self {| inbuf := incoming; log := log (adapter self) |}.

(** The set of legal reflection limits, in watts. *)
Definition reflection_limits : list Z := [0; 100; 150; 180; 200; 230].

(** A fine-frequency payload is well formed: seven characters that read
    back as the frequency, in a command that awaits an acknowledgement. *)
Definition fine_payload_ok (r : Z) : bool :=
  let s := format_0d 7 r in
  Nat.eqb (String.length s) 7
  && match int_of_str s with Ok n => n =? r | Raise _ => false end
  && _is_expecting_acknowledgement (String "f" s).

(** The instrument is configured for [limit]: as [__init__] leaves it. *)
Definition configured (limit : Z) (self : Kusg245_250A) : Prop :=
  0 < limit <= 250 /\
  _power_limit self = limit /\
  power_setpoint_values self = [0; limit].

(** An event respects the power limit: a command that starts with the
    letter of tuning ('b') carries, as three decimal digits, a power
    between 0 and [limit]; one that starts with the letter of the power
    set-point ('A') does so too, or is the query 'A?'. *)
Definition within_limit (limit : Z) (e : event) : Prop :=
  match e with
  | EvWrite (String c payload) =>
      (c = "A"%char ->
       payload = "?"%string \/
       exists p : Z, 0 <= p <= limit /\ payload = digits3 p) /\
      (c = "b"%char ->
       exists p : Z, 0 <= p <= limit /\ payload = digits3 p)
  | _ => True
  end.

(** The integer the power set-point setter transmits for a float: the
    integer part of the float truncated into [[0, limit]]. *)
Definition clamp_float (limit : Z) (q : Q) : Z :=
  if Qle_bool q (inject_Z limit)
  then (if Qle_bool 0 q then int_of_float q else 0)
  else limit.

(** The float lies in the closed range [[0, limit]]. *)
Definition float_in_range (limit : Z) (q : Q) : bool :=
  Qle_bool 0 q && Qle_bool q (inject_Z limit).

(** Running [m] on [self] leaves the configuration alone and only adds
    events that satisfy [P] to the log. *)
Definition tracks (P : event -> Prop) {A} (m : M A) (self : Kusg245_250A) : Prop :=
  _power_limit (snd (m self)) = _power_limit self /\
  power_setpoint_values (snd (m self)) = power_setpoint_values self /\
  exists evs : list event,
    log (adapter (snd (m self))) = log (adapter self) ++ evs /\
    Forall P evs.

(** The 4-digit zero-padded decimal numeral of [n]. *)
Definition digits4 (n : Z) : string :=
  String (digit (n / 1000)) (digits3 (n mod 1000)).

(** The phase code the setter transmits for the phase the getter decodes
    from the code [k]. *)
Definition phase_code_written_back (k : Z) : Z :=
  int_of_float (inject_Z (round (inject_Z k / 256 * 360)) / 360 * 256)%Q.

(** The operations that are one set or action command. *)
Definition is_single_command (op : operation) : bool :=
  match op with
  | SetExternalEnabled _ | SetBiasEnabled _ | SetRfEnabled _
  | SetPulseModeEnabled _ | SetFrequencyCoarse _ | SetFrequencyFine _
  | SetPowerSetpoint _ | SetPulseWidth _ | SetOffTime _ | SetPhaseShift _
  | SetReflectionLimit _ | Tune _ | ClearVSWRError | StoreSettings => true
  | _ => false
  end.

(** A reply string that the device can send as one token: it holds no
    termination byte. *)
Definition one_token (s : string) : bool :=
  negb (existsb (Byte.eqb termination_character) (list_byte_of_string s)).

(** The checks on a coarse frequency [c] that is sent: its payload is the
    4-digit numeral, the command awaits an acknowledgement, and the reply
    that reports it in MHz is one token that the coarse getter decodes to
    [c] and the fine getter to [None]. *)
Definition coarse_payload_ok (c : Z) : bool :=
  let s := format_0d 4 c in
  String.eqb s (digits4 c)
  && _is_expecting_acknowledgement (String "f" s)
  && one_token (s ++ "MHz")
  && match frequency_coarse_get_process (s ++ "MHz") with
     | Ok (Some n) => n =? c
     | _ => false
     end
  && match frequency_fine_get_process (s ++ "MHz") with
     | Ok None => true
     | _ => false
     end.

(** The checks on the reply that reports a fine frequency [r] in kHz: one
    token that the fine getter decodes to [r] and the coarse getter to
    [None]. *)
Definition fine_reply_ok (r : Z) : bool :=
  let s := (format_0d 7 r ++ "kHz")%string in
  one_token s
  && match frequency_fine_get_process s with
     | Ok (Some n) => n =? r
     | _ => false
     end
  && match frequency_coarse_get_process s with
     | Ok None => true
     | _ => false
     end.

(** The checks on a pulse time [c] that is sent: what the set process
    makes of it is a multiple of 5 within [[10, 1000]] at most 2 away, its
    payload is the 4-digit numeral and both commands await an
    acknowledgement. *)
Definition pulse_payload_ok (c : Z) : bool :=
  let r := int_of_float (pulse_set_process c) in
  (10 <=? r) && (r <=? 1000) && (r mod 5 =? 0) && (Z.abs (r - c) <=? 2)
  && String.eqb (format_0d 4 r) (digits4 r)
  && _is_expecting_acknowledgement (pulse_command "C" (pulse_set_process c))
  && _is_expecting_acknowledgement (pulse_command "c" (pulse_set_process c)).

(** The checks on a phase code [k] that is read and written back: the
    decoded phase is in range, and the code that comes back is [k] or the
    one below. *)
Definition phase_write_back_ok (k : Z) : bool :=
  let q := (inject_Z k / 256 * 360)%Q in
  Qle_bool 0 q && Qle_bool q 358.6
  && ((phase_code_written_back k =? k) || (phase_code_written_back k =? k - 1)).

(** The operations that are one query. *)
Definition is_query (op : operation) : bool :=
  match op with
  | GetVoltage5v | GetVoltage32v | GetPowerForward | GetPowerReverse
  | GetExternalEnabled | GetBiasEnabled | GetRfEnabled | GetPulseModeEnabled
  | GetFrequencyCoarse | GetFrequencyFine | GetPhaseShift
  | GetReflectionLimit => true
  | _ => false
  end.

(** The framing messages of all byte values tell the bytes apart. *)
Definition framing_messages_differ : bool :=
  forallb (fun i =>
    forallb (fun j =>
      negb (String.eqb (hex (Z.to_N i)) (hex (Z.to_N j))) || (i =? j))
      (zrange 0 256))
    (zrange 0 256).

(* ===================================================================== *)
(** * Auxiliary facts *)
(* ===================================================================== *)

Lemma new_events_app (self self' : Kusg245_250A) (evs : list event) :
  log (adapter self') = log (adapter self) ++ evs ->
  new_events self self' = evs.
Proof.
  intros H. unfold new_events. rewrite H. clear H.
  generalize (log (adapter self)) as l.
  induction l as [|e l IH]; simpl; auto.
Qed.

Lemma new_events_with_adapter (self : Kusg245_250A) (rest : list byte)
    (evs : list event) :
  new_events self
    (with_adapter self {| inbuf := rest; log := log (adapter self) ++ evs |})
  = evs.
Proof. apply new_events_app. reflexivity. Qed.

Lemma expecting_iff_not_query_like (command : string) :
  _is_expecting_acknowledgement command = negb (query_like command).
Proof.
  unfold _is_expecting_acknowledgement, query_like.
  destruct (existsb _ _); simpl; [reflexivity|].
  destruct (endswith command "?"); reflexivity.
Qed.

(** The reply token compares equal to ["A"] exactly when it is the single
    byte 0x41. *)
Lemma reply_is_A (tok : list byte) :
  String.eqb (string_of_list_byte tok) "A" = true <-> tok = [x41].
Proof.
  split.
  - destruct tok as [|b [|b' tok']]; simpl.
    + discriminate.
    + destruct b; simpl; try discriminate. reflexivity.
    + destruct (Ascii.eqb (ascii_of_byte b) "A"); discriminate.
  - intros ->. reflexivity.
Qed.

Lemma reply_not_A (tok : list byte) :
  tok <> [x41] -> String.eqb (string_of_list_byte tok) "A" = false.
Proof.
  intros H. destruct (String.eqb _ _) eqn:E; [|reflexivity].
  apply reply_is_A in E. contradiction.
Qed.

(** [write] on a command that expects no acknowledgement. *)
Lemma write_query (command : string) (self : Kusg245_250A) :
  _is_expecting_acknowledgement command = false ->
  write command self
  = (Ok tt, with_adapter self (emit (EvWrite command) (adapter self))).
Proof.
  intros H. unfold write, bind, adapter_write. rewrite H. reflexivity.
Qed.

(** [write] on a command that expects one. *)
Lemma write_action (command : string) (self : Kusg245_250A) :
  _is_expecting_acknowledgement command = true ->
  write command self
  = match split_token (inbuf (adapter self)) with
    | Some (tok, rest) =>
        (if String.eqb (string_of_list_byte tok) "A"
         then Ok tt else Raise protocol_violation,
         with_adapter self
           {| inbuf := rest;
              log := log (adapter self) ++ [EvWrite command; EvRead] |})
    | None =>
        (Raise VisaTimeout,
         with_adapter self
           {| inbuf := inbuf (adapter self);
              log := log (adapter self) ++ [EvWrite command; EvRead] |})
    end.
Proof.
  intros H. unfold write, bind, adapter_write. rewrite H.
  unfold read. simpl.
  destruct (split_token (inbuf (adapter self))) as [[tok rest]|]; simpl.
  - rewrite <- app_assoc. simpl.
    destruct (String.eqb (string_of_list_byte tok) "A"); reflexivity.
  - unfold emit. simpl. rewrite <- app_assoc. reflexivity.
Qed.

(* ===================================================================== *)
(** * The command/acknowledgement framer *)
(* ===================================================================== *)

(** C1.  For every command string and every state of the connection,
    [write] puts exactly that command on the wire.  When the command is one
    of v, 5, 8, 6, 7, T or ends in '?', nothing is read and the call
    succeeds.  For every other command exactly one reply token is read; the
    call succeeds when the token is the single byte 'A', and otherwise
    raises the connection error "Expected acknowledgment." having written
    nothing further.  (A device that sends no terminated reply makes the
    read time out.) *)
Theorem write_acknowledgement_rule (command : string) (self : Kusg245_250A) :
  let (r, self') := write command self in
  let evs := new_events self self' in
  log (adapter self') = log (adapter self) ++ evs /\
  written evs = [command] /\
  if query_like command then
    r = Ok tt /\
    tokens_read evs = 0%nat /\
    evs = [EvWrite command] /\
    inbuf (adapter self') = inbuf (adapter self)
  else
    tokens_read evs = 1%nat /\
    evs = [EvWrite command; EvRead] /\
    match split_token (inbuf (adapter self)) with
    | Some (tok, rest) =>
        inbuf (adapter self') = rest /\
        (tok = [x41] -> r = Ok tt) /\
        (tok <> [x41] -> r = Raise (ConnectionError "Expected acknowledgment."))
    | None => r = Raise VisaTimeout
    end.
Proof.
  pose proof (expecting_iff_not_query_like command) as E.
  destruct (query_like command) eqn:Q; simpl in E.
  - rewrite (write_query _ _ E). unfold emit. cbv zeta.
    rewrite new_events_with_adapter. simpl. repeat split; reflexivity.
  - rewrite (write_action _ _ E).
    destruct (split_token (inbuf (adapter self))) as [[tok rest]|] eqn:S;
      cbv zeta; rewrite new_events_with_adapter; simpl.
    + repeat split.
      * intros ->. reflexivity.
      * intros H. rewrite (reply_not_A _ H). reflexivity.
    + repeat split; reflexivity.
Qed.

(* ===================================================================== *)
(** * Framing of binary responses *)
(* ===================================================================== *)

Lemma read_bytes_frame (self : Kusg245_250A) (b rest : list byte) :
  inbuf (adapter self) = b ++ rest ->
  read_bytes (List.length b) self
  = (Ok b, with_adapter self
             {| inbuf := rest;
                log := log (adapter self) ++ [EvReadBytes (List.length b)] |}).
Proof.
  intros H. unfold read_bytes. simpl. rewrite H.
  rewrite length_app.
  replace (List.length b <=? List.length b + List.length rest)%nat with true
    by (symmetry; apply Nat.leb_le; lia).
  rewrite firstn_app, Nat.sub_diag, firstn_all. simpl. rewrite app_nil_r.
  rewrite skipn_app, Nat.sub_diag, skipn_all. reflexivity.
Qed.

(** A query that expects no acknowledgement, followed by the read of its
    binary frame. *)
Lemma query_frame {A} (query : string) (k : list byte -> M A)
    (self : Kusg245_250A) (b rest : list byte) :
  _is_expecting_acknowledgement query = false ->
  inbuf (adapter self) = b ++ rest ->
  (write query ;; b' <- read_bytes (List.length b) ;; k b') self
  = k b (with_adapter self
           {| inbuf := rest;
              log := log (adapter self)
                     ++ [EvWrite query; EvReadBytes (List.length b)] |}).
Proof.
  intros E H. unfold bind at 1. rewrite (write_query _ _ E).
  unfold bind at 1.
  rewrite (read_bytes_frame _ b rest) by exact H.
  simpl. rewrite <- app_assoc. reflexivity.
Qed.

Lemma bad_terminator_raises {A} (good : M A) (b : list byte) (x : byte)
    (self : Kusg245_250A) :
  last_byte b = Ok x ->
  x <> termination_character ->
  (ok <- lift (_has_correct_termination_character b) ;;
   if ok then good else invalid_termination b) self
  = (Raise (framing_error x), self).
Proof.
  intros L N.
  unfold bind, lift, invalid_termination, bind, lift, raise,
    _has_correct_termination_character,
    _err_msg_invalid_termination_character.
  rewrite L.
  destruct (Byte.eqb x termination_character) eqn:E.
  - apply byte_dec_bl in E. contradiction.
  - reflexivity.
Qed.

Lemma good_terminator_accepts {A} (good : M A) (payload : list byte)
    (self : Kusg245_250A) :
  (ok <- lift (_has_correct_termination_character
                 (payload ++ [termination_character])) ;;
   if ok then good else invalid_termination (payload ++ [termination_character]))
    self
  = good self.
Proof.
  unfold bind, lift, _has_correct_termination_character, last_byte.
  rewrite rev_app_distr. reflexivity.
Qed.

(** The shape every binary-response accessor has. *)
Lemma accessor_framing_error {A} (query : string) (count : nat)
    (good : list byte -> M A)
    (self : Kusg245_250A) (b rest : list byte) (x : byte) :
  _is_expecting_acknowledgement query = false ->
  List.length b = count ->
  inbuf (adapter self) = b ++ rest ->
  last_byte b = Ok x ->
  x <> termination_character ->
  raises_framing_error
    (write query ;; b' <- read_bytes count ;;
     ok <- lift (_has_correct_termination_character b') ;;
     if ok then good b' else invalid_termination b')
    self query count x rest.
Proof.
  intros E Len H L N. subst count. unfold raises_framing_error.
  rewrite (query_frame query _ self b rest E H).
  rewrite (bad_terminator_raises _ b x _ L N).
  rewrite new_events_with_adapter. simpl. repeat split; reflexivity.
Qed.

(** C2.  For each of the ten binary-response accessors and every received
    frame (of the length the accessor reads) whose last byte [x] is not the
    termination byte, the accessor raises the connection error "Invalid
    termination character received: " followed by [hex(x)], returns no
    value and leaves the instrument's configuration untouched. *)
Theorem binary_accessors_framing_error
    (self : Kusg245_250A) (b rest : list byte) (x : byte) :
  inbuf (adapter self) = b ++ rest ->
  last_byte b = Ok x ->
  x <> termination_character ->
  (List.length b = 3%nat ->
     raises_framing_error voltage_5v self "5" 3 x rest /\
     raises_framing_error voltage_32v self "8" 3 x rest) /\
  (List.length b = 2%nat ->
     raises_framing_error power_forward self "6" 2 x rest /\
     raises_framing_error power_reverse self "7" 2 x rest /\
     raises_framing_error external_enabled self "r?" 2 x rest /\
     raises_framing_error bias_enabled self "x?" 2 x rest /\
     raises_framing_error rf_enabled self "o?" 2 x rest /\
     raises_framing_error pulse_mode_enabled self "p?" 2 x rest /\
     raises_framing_error phase_shift self "H?" 2 x rest /\
     raises_framing_error reflection_limit self "B?" 2 x rest).
Proof.
  intros H L N. split; intros Len; repeat split;
    unfold voltage_5v, voltage_32v, power_forward, power_reverse,
      external_enabled, bias_enabled, rf_enabled, pulse_mode_enabled,
      phase_shift, reflection_limit;
    apply (accessor_framing_error _ _ _ self b rest x);
    solve [reflexivity | assumption].
Qed.

Lemma binary_accessors_framing_error_witness :
  raises_framing_error power_forward (instrument [x1e; xff] 250) "6" 2 xff []
  /\ fst (power_forward (instrument [x1e; xff] 250))
     = Raise (ConnectionError "Invalid termination character received: 0xff")
  /\ raises_framing_error voltage_5v (instrument [x01; x02; x0a; x0d] 250)
       "5" 3 x0a [x0d].
Proof.
  split; [|split].
  - exact (proj1 (proj2 (binary_accessors_framing_error
                           (instrument [x1e; xff] 250) [x1e; xff] [] xff
                           eq_refl eq_refl ltac:(discriminate)) eq_refl)).
  - reflexivity.
  - exact (proj1 (proj1 (binary_accessors_framing_error
                           (instrument [x01; x02; x0a; x0d] 250)
                           [x01; x02; x0a] [x0d] x0a
                           eq_refl eq_refl ltac:(discriminate)) eq_refl)).
Defined.

(* ===================================================================== *)
(** * Power set-point and tuning *)
(* ===================================================================== *)

Lemma forallb_zrange (P : Z -> bool) (lo : Z) (n : nat) :
  forallb P (zrange lo n) = true ->
  forall z, lo <= z < lo + Z.of_nat n -> P z = true.
Proof.
  intros H z Hz. rewrite forallb_forall in H. apply H.
  unfold zrange. apply in_map_iff. exists (Z.to_nat (z - lo)). split.
  - lia.
  - apply in_seq. lia.
Qed.

Lemma truncated_range_clamps (lo hi v : Z) :
  lo <= hi ->
  truncated_range Z Z.leb v [lo; hi] = Ok (clamp lo hi v).
Proof.
  intros H. unfold truncated_range, min_of, max_of, clamp. simpl.
  destruct (Z.leb_spec lo hi); [|lia].
  destruct (Z.leb_spec hi lo);
    destruct (Z.leb_spec lo v); destruct (Z.leb_spec v hi); simpl;
    try destruct (Z.leb_spec v lo); simpl; f_equal; lia.
Qed.

Lemma format_0d_3_digits (p : Z) :
  0 <= p <= 999 -> format_0d 3 p = digits3 p.
Proof.
  intros H.
  apply String.eqb_eq.
  apply (forallb_zrange (fun z => String.eqb (format_0d 3 z) (digits3 z)) 0 1000).
  - vm_compute. reflexivity.
  - lia.
Qed.

Lemma digits3_command_expects_ack (letter : ascii) (p : Z) :
  In letter ["b"; "A"; "H"]%char ->
  0 <= p <= 999 ->
  _is_expecting_acknowledgement (String letter (digits3 p)) = true.
Proof.
  intros L H.
  apply (forallb_zrange
           (fun z => _is_expecting_acknowledgement (String letter (digits3 z)))
           0 1000); [|lia].
  destruct L as [<- | [<- | [<- | []]]]; vm_compute; reflexivity.
Qed.

(** A set command that expects an acknowledgement: what [write] adds to
    the log, whatever the device replies. *)
Lemma write_action_events (command : string) (self : Kusg245_250A) :
  _is_expecting_acknowledgement command = true ->
  new_events self (snd (write command self)) = [EvWrite command; EvRead].
Proof.
  intros E. rewrite (write_action _ _ E).
  destruct (split_token (inbuf (adapter self))) as [[tok rest]|]; simpl;
    apply new_events_with_adapter.
Qed.

(** How a set command can end: acknowledged, refused, or unanswered. *)
Lemma write_action_outcome (command : string) (self : Kusg245_250A) :
  _is_expecting_acknowledgement command = true ->
  match fst (write command self) with
  | Ok _ => acknowledged self = true
  | Raise e =>
      acknowledged self = false /\ (e = protocol_violation \/ e = VisaTimeout)
  end.
Proof.
  intros E. rewrite (write_action _ _ E). unfold acknowledged.
  destruct (split_token (inbuf (adapter self))) as [[tok rest]|]; simpl.
  - destruct (String.eqb (string_of_list_byte tok) "A"); simpl; auto.
  - auto.
Qed.

Lemma lift_ok_bind {A B} (a : A) (k : A -> M B) (self : Kusg245_250A) :
  (x <- lift (Ok a) ;; k x) self = k a self.
Proof. reflexivity. Qed.

(** The integer case of C3.  On every instance constructed with a power
    limit in (0, 250] and
    for every integer power, [tune] and the [power_setpoint] setter clamp
    the value into [0, power_limit] and transmit it as a 3-digit
    zero-padded decimal after the command letter ('b' and 'A'). *)
Theorem power_commands_clamped (power_limit power : Z) (conn : connection) :
  0 < power_limit <= 250 ->
  exists self,
    __init__ conn power_limit = Ok self /\
    let p := clamp 0 power_limit power in
    0 <= p <= power_limit /\
    (0 <= power <= power_limit -> p = power) /\
    (power_limit < power -> p = power_limit) /\
    new_events self (snd (tune power self))
    = [EvWrite (String "b" (digits3 p)); EvRead] /\
    new_events self (snd (set_power_setpoint power self))
    = [EvWrite (String "A" (digits3 p)); EvRead].
Proof.
  intros H. eexists. split.
  - unfold __init__.
    destruct (Z.ltb_spec 0 power_limit); [|lia].
    destruct (Z.leb_spec power_limit 250); [|lia].
    reflexivity.
  - cbv zeta.
    assert (B : 0 <= clamp 0 power_limit power <= power_limit)
      by (unfold clamp; lia).
    split; [exact B|]. split; [unfold clamp; lia|].
    split; [unfold clamp; lia|].
    split.
    + unfold tune. simpl _power_limit.
      rewrite truncated_range_clamps by lia. rewrite lift_ok_bind.
      rewrite format_0d_3_digits by lia. simpl append.
      rewrite write_action_events
        by (apply digits3_command_expects_ack; [simpl; auto | lia]).
      reflexivity.
    + unfold set_power_setpoint, control_set. simpl power_setpoint_values.
      rewrite truncated_range_clamps by lia. rewrite lift_ok_bind.
      rewrite format_0d_3_digits by lia. simpl append.
      rewrite write_action_events
        by (apply digits3_command_expects_ack; [simpl; auto | lia]).
      reflexivity.
Qed.

Lemma power_commands_clamped_witness :
  exists self,
    __init__ {| inbuf := ack; log := [] |} 100 = Ok self /\
    written (new_events self (snd (set_power_setpoint 150 self))) = ["A100"%string] /\
    written (new_events self (snd (tune 150 self))) = ["b100"%string].
Proof.
  destruct (power_commands_clamped 100 150 {| inbuf := ack; log := [] |}
              ltac:(lia)) as [self [I [_ [_ [_ [T P]]]]]].
  exists self. split; [exact I|].
  rewrite P, T. split; reflexivity.
Defined.

(* ===================================================================== *)
(** * Compound operations *)
(* ===================================================================== *)

(** A set command whose reply is something else. *)
Lemma write_refused (command : string) (self : Kusg245_250A)
    (tok rest : list byte) :
  _is_expecting_acknowledgement command = true ->
  split_token (inbuf (adapter self)) = Some (tok, rest) ->
  tok <> [x41] ->
  write command self
  = (Raise protocol_violation,
     with_adapter self
       {| inbuf := rest;
          log := log (adapter self) ++ [EvWrite command; EvRead] |}).
Proof.
  intros E S N. rewrite (write_action _ _ E), S, (reply_not_A _ N).
  reflexivity.
Qed.

(** Two acknowledged commands in a row, with an optional pause between
    them: the events of the whole sequence. *)
Lemma two_writes_events (first second : string) (pause : list event)
    (self mid : Kusg245_250A) :
  _is_expecting_acknowledgement second = true ->
  log (adapter mid) = log (adapter self) ++ EvWrite first :: EvRead :: pause ->
  new_events self (snd (write second mid))
  = EvWrite first :: EvRead :: pause ++ [EvWrite second; EvRead].
Proof.
  intros E L. apply new_events_app.
  rewrite (write_action _ _ E).
  destruct (split_token (inbuf (adapter mid))) as [[tok rest]|]; simpl;
    rewrite L, <- app_assoc; reflexivity.
Qed.

(** C4.  Every call of [turn_on] writes the bias-enable command 'X' first;
    the RF-enable command 'O' is written only after 'X' was acknowledged
    and a pause of 500 ms was taken, in that order.  Every call of
    [shutdown] writes the RF-disable command 'o' first; the bias-disable
    command 'x' is written only after it, once 'o' was acknowledged. *)
Theorem compound_operations_order (self : Kusg245_250A) :
  new_events self (snd (turn_on self))
  = (if acknowledged self
     then [EvWrite "X"; EvRead; EvSleep 500; EvWrite "O"; EvRead]
     else [EvWrite "X"; EvRead])
  /\
  new_events self (snd (shutdown self))
  = (if acknowledged self
     then [EvWrite "o"; EvRead; EvWrite "x"; EvRead]
     else [EvWrite "o"; EvRead]).
Proof.
  unfold acknowledged, turn_on, shutdown, set_bias_enabled, set_rf_enabled.
  split.
  - unfold bind at 1. rewrite (write_action "X" self eq_refl).
    destruct (split_token (inbuf (adapter self))) as [[tok rest]|].
    + destruct (String.eqb (string_of_list_byte tok) "A").
      * unfold bind, sleep. simpl.
        apply (two_writes_events "X" "O" [EvSleep 500]); [reflexivity|].
        simpl. rewrite <- app_assoc. reflexivity.
      * apply new_events_with_adapter.
    + apply new_events_with_adapter.
  - unfold bind at 1. rewrite (write_action "o" self eq_refl).
    destruct (split_token (inbuf (adapter self))) as [[tok rest]|].
    + destruct (String.eqb (string_of_list_byte tok) "A").
      * apply (two_writes_events "o" "x" []); reflexivity.
      * apply new_events_with_adapter.
    + apply new_events_with_adapter.
Qed.

(** C10.  When the reply to the first command of a compound operation is
    not the single byte 'A', the operation raises "Expected acknowledgment."
    and stops there: [shutdown] has written 'o' and never writes 'x',
    [turn_on] has written 'X' and never pauses nor writes 'O'. *)
Theorem compound_operations_abort (self : Kusg245_250A) (tok rest : list byte) :
  split_token (inbuf (adapter self)) = Some (tok, rest) ->
  tok <> [x41] ->
  (fst (shutdown self) = Raise (ConnectionError "Expected acknowledgment.") /\
   new_events self (snd (shutdown self)) = [EvWrite "o"; EvRead] /\
   ~ In "x"%string (written (new_events self (snd (shutdown self)))))
  /\
  (fst (turn_on self) = Raise (ConnectionError "Expected acknowledgment.") /\
   new_events self (snd (turn_on self)) = [EvWrite "X"; EvRead] /\
   ~ In "O"%string (written (new_events self (snd (turn_on self))))).
Proof.
  intros S N.
  assert (Sh : shutdown self
               = (Raise protocol_violation,
                  with_adapter self
                    {| inbuf := rest;
                       log := log (adapter self) ++ [EvWrite "o"; EvRead] |})).
  { unfold shutdown, set_rf_enabled, bind.
    rewrite (write_refused "o" self tok rest eq_refl S N). reflexivity. }
  assert (On : turn_on self
               = (Raise protocol_violation,
                  with_adapter self
                    {| inbuf := rest;
                       log := log (adapter self) ++ [EvWrite "X"; EvRead] |})).
  { unfold turn_on, set_bias_enabled, bind.
    rewrite (write_refused "X" self tok rest eq_refl S N). reflexivity. }
  rewrite Sh, On. simpl fst. simpl snd.
  rewrite !new_events_with_adapter. simpl.
  repeat split; try reflexivity; intros [H | []]; discriminate.
Qed.

Lemma compound_operations_abort_witness :
  fst (shutdown (instrument [x42; x0d; x41; x0d] 250))
  = Raise (ConnectionError "Expected acknowledgment.")
  /\ written (new_events (instrument [x42; x0d; x41; x0d] 250)
               (snd (shutdown (instrument [x42; x0d; x41; x0d] 250))))
     = ["o"%string]
  /\ written (new_events (instrument [x42; x0d; x41; x0d] 250)
               (snd (turn_on (instrument [x42; x0d; x41; x0d] 250))))
     = ["X"%string].
Proof.
  destruct (compound_operations_abort
              (instrument [x42; x0d; x41; x0d] 250) [x42] [x41; x0d]
              eq_refl ltac:(discriminate)) as [[R [E _]] [_ [E' _]]].
  rewrite R, E, E'. repeat split.
Defined.

(* ===================================================================== *)
(** * Rail voltages *)
(* ===================================================================== *)

(** X1.  What the rail-voltage accessors return on every well-terminated frame:
    the scale factor times the two data bytes read as one unsigned integer,
    the first byte being the more significant one. *)
Lemma rail_voltages_decode (self : Kusg245_250A) (b0 b1 : byte) (rest : list byte) :
  fst (voltage_5v (receiving self (b0 :: b1 :: termination_character :: rest)))
  = Ok (103 / 4700
        * inject_Z (Z.of_N (Byte.to_N b0) * 256 + Z.of_N (Byte.to_N b1)))%Q
  /\
  fst (voltage_32v (receiving self (b0 :: b1 :: termination_character :: rest)))
  = Ok (1282 / 8200
        * inject_Z (Z.of_N (Byte.to_N b0) * 256 + Z.of_N (Byte.to_N b1)))%Q.
Proof.
  unfold voltage_5v, voltage_32v. split.
  - rewrite (query_frame "5" _
               (receiving self (b0 :: b1 :: termination_character :: rest))
               [b0; b1; termination_character] rest eq_refl eq_refl).
    rewrite (good_terminator_accepts _ [b0; b1]). reflexivity.
  - rewrite (query_frame "8" _
               (receiving self (b0 :: b1 :: termination_character :: rest))
               [b0; b1; termination_character] rest eq_refl eq_refl).
    rewrite (good_terminator_accepts _ [b0; b1]). reflexivity.
Qed.

(** X2.  What the one-byte accessors return on every well-terminated frame: the
    powers are the data byte as an integer, the flags are true exactly when
    it is not zero, the phase is the byte over 256 of a full turn. *)
Lemma one_byte_accessors_decode (self : Kusg245_250A) (c : byte) (rest : list byte) :
  let frame := receiving self (c :: termination_character :: rest) in
  let raw := Z.of_N (Byte.to_N c) in
  fst (power_forward frame) = Ok raw /\
  fst (power_reverse frame) = Ok raw /\
  fst (external_enabled frame) = Ok (negb (raw =? 0)) /\
  fst (bias_enabled frame) = Ok (negb (raw =? 0)) /\
  fst (rf_enabled frame) = Ok (negb (raw =? 0)) /\
  fst (pulse_mode_enabled frame) = Ok (negb (raw =? 0)) /\
  fst (phase_shift frame) = Ok (inject_Z raw / 256 * 360)%Q /\
  fst (power_forward (instrument [x1e; x0d] 250)) = Ok 30.
Proof.
  cbv zeta.
  unfold power_forward, power_reverse, external_enabled, bias_enabled,
    rf_enabled, pulse_mode_enabled, phase_shift.
  repeat split;
    try (erewrite (query_frame _ _
                     (receiving self (c :: termination_character :: rest))
                     [c; termination_character] rest eq_refl eq_refl);
         rewrite (good_terminator_accepts _ [c]); reflexivity).
Qed.

(** C5.  On the well-terminated frame 01 00 0D the 5 V accessor returns
    103/4700 * 256 and the 32 V accessor 1282/8200 * 256: the two data
    bytes are read most significant first, whereas their little-endian
    value (the module's own [byteorder]) is 1. *)
Example rail_voltages_byte_order :
  fst (voltage_5v (instrument [x01; x00; x0d] 250))
  = Ok (103 / 4700 * inject_Z 256)%Q
  /\ fst (voltage_32v (instrument [x01; x00; x0d] 250))
     = Ok (1282 / 8200 * inject_Z 256)%Q
  /\ int_from_bytes [x01; x00] byteorder = 1
  /\ ~ (103 / 4700 * inject_Z 256
        == 103 / 4700 * inject_Z (int_from_bytes [x01; x00] byteorder))%Q.
Proof.
  repeat split. intros H. vm_compute in H. discriminate.
Qed.

(* ===================================================================== *)
(** * Reflection limit *)
(* ===================================================================== *)

(** Case analysis along the five thresholds of the reflection limits. *)
Ltac by_reflection_cases value :=
  destruct (value <=? 0); [reflexivity|];
  destruct (value <=? 100); [reflexivity|];
  destruct (value <=? 150); [reflexivity|];
  destruct (value <=? 180); [reflexivity|];
  destruct (value <=? 200); [reflexivity|];
  try destruct (value <=? 230); reflexivity.

Lemma reflection_values_sorted :
  sorted Z Z.leb (dict_values reflection_limit_map) = reflection_limits.
Proof. reflexivity. Qed.

(** The validator on the reflection limits, by cases on the value. *)
Lemma truncated_reflection_limit (value : Z) :
  truncated_discrete_set Z Z.leb value (dict_values reflection_limit_map)
  = Ok (if value <=? 0 then 0
        else if value <=? 100 then 100
        else if value <=? 150 then 150
        else if value <=? 180 then 180
        else if value <=? 200 then 200
        else 230).
Proof.
  unfold truncated_discrete_set. rewrite reflection_values_sorted.
  unfold reflection_limits. simpl find.
  by_reflection_cases value.
Qed.

(** The setter on any integer: the one command it sends. *)
Lemma set_reflection_limit_is_write (value : Z) (self : Kusg245_250A) :
  set_reflection_limit value self
  = write (String "B" (String (digit (reflection_code value)) EmptyString)) self.
Proof.
  unfold set_reflection_limit. rewrite truncated_reflection_limit.
  rewrite lift_ok_bind. unfold reflection_code.
  by_reflection_cases value.
Qed.

Lemma reflection_command_expects_ack (value : Z) :
  _is_expecting_acknowledgement
    (String "B" (String (digit (reflection_code value)) EmptyString)) = true.
Proof.
  unfold reflection_code.
  by_reflection_cases value.
Qed.

Lemma set_reflection_limit_events (value : Z) (self : Kusg245_250A) :
  new_events self (snd (set_reflection_limit value self))
  = [EvWrite (String "B" (String (digit (reflection_code value)) EmptyString));
     EvRead].
Proof.
  rewrite set_reflection_limit_is_write.
  apply write_action_events, reflection_command_expects_ack.
Qed.

Lemma reflection_limit_decodes (self : Kusg245_250A) (c : byte) (rest : list byte) :
  fst (reflection_limit (receiving self (c :: termination_character :: rest)))
  = dict_get reflection_limit_map (Z.of_N (Byte.to_N c)).
Proof.
  unfold reflection_limit.
  rewrite (query_frame "B?" _
             (receiving self (c :: termination_character :: rest))
             [c; termination_character] rest eq_refl eq_refl).
  rewrite (good_terminator_accepts _ [c]).
  unfold bind, lift. simpl first_byte. cbv iota beta.
  destruct (dict_get reflection_limit_map _); reflexivity.
Qed.

(** C9.  For every legal reflection limit, the setter transmits 'B'
    followed by the decimal digit of a device code, and the getter, on a
    well-terminated response carrying that code, returns the limit again.
    For every received code byte that is not a key of the fixed map, the
    getter raises a [KeyError] for it instead of returning a value. *)
Theorem reflection_limit_round_trip
    (value : Z) (c : byte) (before self : Kusg245_250A) (rest : list byte) :
  In value reflection_limits ->
  ~ In (Z.of_N (Byte.to_N c)) (map fst reflection_limit_map) ->
  (exists code : byte,
     In (Z.of_N (Byte.to_N code), value) reflection_limit_map /\
     new_events before (snd (set_reflection_limit value before))
     = [EvWrite ("B" ++ decimal (Byte.to_N code)); EvRead] /\
     fst (reflection_limit
            (receiving self (code :: termination_character :: rest)))
     = Ok value)
  /\
  fst (reflection_limit (receiving self (c :: termination_character :: rest)))
  = Raise (KeyError (Z.of_N (Byte.to_N c))).
Proof.
  intros V K. split.
  - assert (C : exists code : byte,
               In (Z.of_N (Byte.to_N code), value) reflection_limit_map /\
               String (digit (reflection_code value)) EmptyString
               = decimal (Byte.to_N code) /\
               dict_get reflection_limit_map (Z.of_N (Byte.to_N code)) = Ok value).
    { unfold reflection_limits in V. simpl in V.
      destruct V as [<- | [<- | [<- | [<- | [<- | [<- | []]]]]]].
      - exists x00. simpl. auto.
      - exists x01. simpl. auto.
      - exists x02. simpl. auto 6.
      - exists x03. simpl. auto 7.
      - exists x04. simpl. auto 8.
      - exists x05. simpl. auto 9. }
    destruct C as [code [I [D G]]]. exists code.
    split; [exact I|]. split.
    + rewrite set_reflection_limit_events, D. reflexivity.
    + rewrite reflection_limit_decodes. exact G.
  - rewrite reflection_limit_decodes.
    unfold dict_get.
    destruct (find _ reflection_limit_map) as [[k v]|] eqn:F; [|reflexivity].
    exfalso. apply K.
    apply find_some in F. destruct F as [I E]. simpl in E.
    apply Z.eqb_eq in E. subst k.
    apply in_map_iff. exists (Z.of_N (Byte.to_N c), v). split; [reflexivity | exact I].
Qed.

Lemma reflection_limit_round_trip_witness :
  (exists code : byte,
     In (Z.of_N (Byte.to_N code), 150) reflection_limit_map /\
     new_events (instrument ack 250)
       (snd (set_reflection_limit 150 (instrument ack 250)))
     = [EvWrite ("B" ++ decimal (Byte.to_N code)); EvRead] /\
     fst (reflection_limit
            (receiving (instrument [] 250) [code; termination_character]))
     = Ok 150)
  /\
  fst (reflection_limit
         (receiving (instrument [] 250) [x32; termination_character]))
  = Raise (KeyError 50).
Proof.
  apply (reflection_limit_round_trip 150 x32 (instrument ack 250)
           (instrument [] 250) []).
  - unfold reflection_limits. simpl. auto.
  - simpl. intros [H | [H | [H | [H | [H | [H | []]]]]]]; discriminate.
Defined.

(** C6 (as stated, refuted).  50 is not a legal reflection limit, yet
    setting it is not rejected: the command 'B1' (the code of 100 W) is
    transmitted and the call succeeds once acknowledged. *)
Lemma reflection_limit_50_is_transmitted :
  ~ In 50 reflection_limits
  /\ set_reflection_limit 50 (instrument ack 250)
     = (Ok tt,
        {| adapter := {| inbuf := []; log := [EvWrite "B1"; EvRead] |};
           _power_limit := 250;
           power_setpoint_values := [0; 250] |}).
Proof.
  split; [|reflexivity].
  unfold reflection_limits. simpl.
  intros [H | [H | [H | [H | [H | [H | []]]]]]]; discriminate.
Qed.

(** C6 (amended).  Setting the reflection limit never rejects an integer:
    the value is replaced by the smallest legal limit that is not below it,
    or by the largest one (230) when it exceeds them all, and that limit's
    device code is transmitted as 'B' and one decimal digit.  The call can
    then only end acknowledged, refused by the device or unanswered. *)
Theorem set_reflection_limit_truncates (value : Z) (self : Kusg245_250A) :
  exists member code : Z,
    In (code, member) reflection_limit_map /\
    (value <= member \/ (230 < value /\ member = 230)) /\
    Forall (fun m => m < value \/ member <= m) reflection_limits /\
    new_events self (snd (set_reflection_limit value self))
    = [EvWrite (String "B" (String (digit code) EmptyString)); EvRead] /\
    match fst (set_reflection_limit value self) with
    | Ok _ => acknowledged self = true
    | Raise e =>
        acknowledged self = false /\ (e = protocol_violation \/ e = VisaTimeout)
    end.
Proof.
  assert (O := write_action_outcome _ self (reflection_command_expects_ack value)).
  rewrite <- set_reflection_limit_is_write in O.
  assert (E := set_reflection_limit_events value self).
  revert O E.
  generalize (set_reflection_limit value self) as outcome.
  intros outcome O E. rewrite E. clear E.
  unfold reflection_code, reflection_limits, reflection_limit_map.
  destruct (Z.leb_spec value 0);
    [exists 0, 0 | destruct (Z.leb_spec value 100);
    [exists 100, 1 | destruct (Z.leb_spec value 150);
    [exists 150, 2 | destruct (Z.leb_spec value 180);
    [exists 180, 3 | destruct (Z.leb_spec value 200);
    [exists 200, 4 | exists 230, 5]]]]];
    (split; [simpl; tauto|]);
    (split; [lia|]);
    (split; [repeat constructor; lia|]);
    (split; [reflexivity | exact O]).
Qed.

(* ===================================================================== *)
(** * Fine frequency *)
(* ===================================================================== *)

(** [round(c, -1)]: a multiple of ten nearest to [c], the even multiple on
    a tie. *)
Lemma round_int_tens (c : Z) :
  let r := round_int c (-1) in
  r mod 10 = 0 /\
  Z.abs (r - c) <= 5 /\
  (Z.abs (r - c) < 5 \/ Z.even (r / 10) = true).
Proof.
  unfold round_int. change (0 <=? -1) with false.
  change (10 ^ (- -1)) with 10. cbv iota zeta.
  pose proof (Z.div_mod c 10 ltac:(lia)) as D.
  pose proof (Z.mod_pos_bound c 10 ltac:(lia)) as B.
  destruct (10 <? 2 * (c mod 10)) eqn:G;
    [apply Z.ltb_lt in G | apply Z.ltb_ge in G];
    (destruct (2 * (c mod 10) =? 10) eqn:T;
     [apply Z.eqb_eq in T | apply Z.eqb_neq in T]);
    destruct (Z.odd (c / 10)) eqn:O;
    cbv beta iota delta [orb andb];
    rewrite Z.mod_mul, Z.div_mul by lia;
    (split; [reflexivity|]); (split; [lia|]);
    try (left; lia); right.
  - rewrite Z.add_1_r, Z.even_succ. exact O.
  - rewrite <- Z.negb_odd, O. reflexivity.
Qed.

Lemma round_int_tens_range (c : Z) :
  2400000 <= c <= 2500000 -> 2400000 <= round_int c (-1) <= 2500000.
Proof.
  intros H. destruct (round_int_tens c) as [M [A _]]. cbv zeta in M, A.
  pose proof (Z.div_mod (round_int c (-1)) 10 ltac:(lia)) as D.
  rewrite M in D. lia.
Qed.

Lemma fine_payloads_ok (r : Z) :
  2400000 <= r <= 2500000 -> r mod 10 = 0 -> fine_payload_ok r = true.
Proof.
  intros H M.
  pose proof (Z.div_mod r 10 ltac:(lia)) as D. rewrite M in D.
  replace r with (10 * (r / 10)) by lia.
  apply (forallb_zrange (fun k => fine_payload_ok (10 * k))
           240000 (Z.to_nat 10001)).
  - vm_compute. reflexivity.
  - lia.
Qed.

(** C7 (as stated, refuted).  Setting the fine frequency to 2450005 kHz
    transmits 'f2450000', not 'f2450010': the tie between the two
    neighbouring multiples of ten goes to the even one. *)
Lemma frequency_fine_2450005_is_sent_as_2450000 :
  written (new_events (instrument ack 250)
             (snd (set_frequency_fine 2450005 (instrument ack 250))))
  = ["f2450000"%string]
  /\ written (new_events (instrument ack 250)
                (snd (set_frequency_fine 2450005 (instrument ack 250))))
     <> ["f2450010"%string].
Proof.
  split; [reflexivity|]. intros H. vm_compute in H. discriminate.
Qed.

(** C7 (amended).  Setting the fine frequency clamps the value into
    [2400000, 2500000] kHz, rounds it to a nearest multiple of ten, a tie
    going to the even multiple (so 2450005 is transmitted as 2450000 and
    2450015 as 2450020), and transmits 'f' followed by the result as a
    7-digit decimal.  Decoding the reply "2450010kHz" yields 2450010. *)
Theorem set_frequency_fine_rounds_half_even (value : Z) (self : Kusg245_250A) :
  (exists r : Z,
     new_events self (snd (set_frequency_fine value self))
     = [EvWrite (String "f" (format_0d 7 r)); EvRead] /\
     String.length (format_0d 7 r) = 7%nat /\
     int_of_str (format_0d 7 r) = Ok r /\
     2400000 <= r <= 2500000 /\
     r mod 10 = 0 /\
     Z.abs (r - clamp 2400000 2500000 value) <= 5 /\
     (Z.abs (r - clamp 2400000 2500000 value) < 5 \/ Z.even (r / 10) = true))
  /\ written (new_events (instrument ack 250)
                (snd (set_frequency_fine 2450005 (instrument ack 250))))
     = ["f2450000"%string]
  /\ written (new_events (instrument ack 250)
                (snd (set_frequency_fine 2450015 (instrument ack 250))))
     = ["f2450020"%string]
  /\ frequency_fine_get_process "2450010kHz" = Ok (Some 2450010)
  /\ fst (frequency_fine
            (instrument (list_byte_of_string "2450010kHz" ++ [termination_character]) 250))
     = Ok (Some 2450010).
Proof.
  split; [|repeat split].
  set (c := clamp 2400000 2500000 value).
  assert (C : 2400000 <= c <= 2500000) by (unfold c, clamp; lia).
  exists (round_int c (-1)).
  destruct (round_int_tens c) as [M [A T]]. cbv zeta in M, A, T.
  pose proof (round_int_tens_range c C) as R.
  pose proof (fine_payloads_ok _ R M) as P.
  unfold fine_payload_ok in P. cbv zeta in P.
  apply andb_prop in P. destruct P as [P Ack].
  apply andb_prop in P. destruct P as [Len Int].
  apply Nat.eqb_eq in Len.
  split.
  - unfold set_frequency_fine, control_set.
    rewrite truncated_range_clamps by lia. rewrite lift_ok_bind.
    fold c. simpl append.
    apply write_action_events. exact Ack.
  - split; [exact Len|]. split.
    + destruct (int_of_str (format_0d 7 (round_int c (-1)))) as [n|e];
        [|discriminate].
      apply Z.eqb_eq in Int. subst n. reflexivity.
    + repeat split; try lia; assumption.
Qed.

(* ===================================================================== *)
(** * Phase shift *)
(* ===================================================================== *)

Lemma truncated_phase (value : Q) :
  exists v : Q,
    truncated_range Q Qle_bool value [0; 358.6]%Q = Ok v /\
    (0 <= v)%Q /\ (v <= 358.6)%Q /\
    ((0 <= value)%Q -> (value <= 358.6)%Q -> v = value).
Proof.
  unfold truncated_range.
  change (min_of Q Qle_bool [0; 358.6]%Q) with (Ok 0%Q).
  change (max_of Q Qle_bool [0; 358.6]%Q) with (Ok 358.6%Q).
  cbv beta iota.
  destruct (Qle_bool 0 value) eqn:L; destruct (Qle_bool value 358.6) eqn:U;
    simpl.
  - exists value. apply Qle_bool_iff in L, U. repeat split; auto.
  - exists 358.6%Q. repeat split; try (unfold Qle; simpl; lia).
    intros _ H. apply Qle_bool_iff in H. congruence.
  - exists 0%Q. repeat split; try (unfold Qle; simpl; lia).
    intros H _. apply Qle_bool_iff in H. congruence.
  - exists 358.6%Q. repeat split; try (unfold Qle; simpl; lia).
    intros H _. apply Qle_bool_iff in H. congruence.
Qed.

Lemma round_near_floor (x : Q) : Qfloor x <= round x <= Qfloor x + 1.
Proof.
  unfold round. destruct (_ ?= _)%Q; [destruct (Z.even _)| |]; lia.
Qed.

Lemma round_of_phase (v : Q) :
  (0 <= v)%Q -> (v <= 358.6)%Q -> 0 <= round v <= 359.
Proof.
  intros L U.
  pose proof (round_near_floor v) as R.
  pose proof (Qfloor_resp_le _ _ L) as F0.
  pose proof (Qfloor_resp_le _ _ U) as F1.
  change (Qfloor 0) with 0 in F0. change (Qfloor 358.6) with 358 in F1.
  lia.
Qed.

Lemma phase_code_of_degrees (n : Z) :
  0 <= n -> int_of_float (inject_Z n / 360 * 256)%Q = n * 256 / 360.
Proof.
  intros H. unfold int_of_float, Qdiv, Qmult, Qinv, inject_Z. simpl.
  rewrite Z.mul_1_r. apply Z.quot_div_nonneg; lia.
Qed.

(** X3.  What the phase-shift setter transmits, for every value: the truncated
    value is rounded to whole degrees first, and the code is the integer
    part of [degrees / 360 * 256]. *)
Lemma set_phase_shift_transmits (value : Q) (self : Kusg245_250A) :
  exists v : Q,
    truncated_range Q Qle_bool value [0; 358.6]%Q = Ok v /\
    0 <= round v * 256 / 360 <= 255 /\
    new_events self (snd (set_phase_shift value self))
    = [EvWrite (String "H" (digits3 (round v * 256 / 360))); EvRead].
Proof.
  destruct (truncated_phase value) as [v [T [L [U _]]]].
  exists v. split; [exact T|].
  pose proof (round_of_phase v L U) as R.
  assert (C : 0 <= round v * 256 / 360 <= 255).
  { split.
    - apply Z.div_pos; lia.
    - apply Z.lt_succ_r. apply Z.div_lt_upper_bound; lia. }
  split; [exact C|].
  unfold set_phase_shift. rewrite T, lift_ok_bind.
  rewrite phase_code_of_degrees by lia.
  rewrite format_0d_3_digits by lia. simpl append.
  apply write_action_events.
  apply digits3_command_expects_ack; [simpl; auto | lia].
Qed.

(** C8.  Setting the phase shift to 1 degree transmits 'H000', whereas
    [round(1 / 360 * 256)] is 1 ('H001').  Likewise for 1.40625 degrees,
    the value the getter decodes from code 1: the setter transmits code 0
    for it.  The setter rounds the truncated value to whole degrees and
    takes the integer part of the scaled result, instead of rounding the
    scaled value. *)
Example phase_shift_setter_code :
  written (new_events (instrument ack 250)
             (snd (set_phase_shift 1 (instrument ack 250))))
  = ["H000"%string]
  /\ format_0d 3 (phase_code_spec 1) = "001"%string
  /\ fst (phase_shift (instrument [x01; x0d] 250)) = Ok (inject_Z 1 / 256 * 360)%Q
  /\ (inject_Z 1 / 256 * 360 == 1.40625)%Q
  /\ written (new_events (instrument ack 250)
                (snd (set_phase_shift 1.40625 (instrument ack 250))))
     = ["H000"%string]
  /\ format_0d 3 (phase_code_spec 1.40625) = "001"%string.
Proof. repeat split. Qed.

(* ===================================================================== *)
(** * Powers of either type *)
(* ===================================================================== *)

Lemma number_leb_int (a b : Z) : number_leb (Int a) (Int b) = (a <=? b).
Proof.
  unfold number_leb, Qle_bool. simpl. rewrite !Z.mul_1_r. reflexivity.
Qed.

Lemma truncated_range_number (limit : Z) (x : number) :
  0 < limit ->
  truncated_range number number_leb x [Int 0; Int limit]
  = Ok (if number_leb (Int 0) x && number_leb x (Int limit) then x
        else if negb (number_leb x (Int limit)) then Int limit
        else Int 0).
Proof.
  intros L. unfold truncated_range, min_of, max_of. simpl fold_left.
  rewrite !number_leb_int.
  destruct (Z.leb_spec 0 limit); [|lia].
  destruct (Z.leb_spec limit 0); [lia|].
  destruct (number_leb (Int 0) x && number_leb x (Int limit));
    [reflexivity|].
  destruct (negb (number_leb x (Int limit))); reflexivity.
Qed.

Lemma truncated_range_int (limit p : Z) :
  0 < limit ->
  truncated_range number number_leb (Int p) [Int 0; Int limit]
  = Ok (Int (clamp 0 limit p)).
Proof.
  intros L. rewrite truncated_range_number by exact L.
  rewrite !number_leb_int. unfold clamp.
  destruct (Z.leb_spec 0 p); destruct (Z.leb_spec p limit); simpl;
    do 2 f_equal; lia.
Qed.

Lemma int_of_float_in_range (limit : Z) (q : Q) :
  float_in_range limit q = true -> 0 <= int_of_float q <= limit.
Proof.
  unfold float_in_range. intros H.
  apply andb_prop in H. destruct H as [L U].
  apply Qle_bool_iff in L, U.
  assert (E : int_of_float q = Qfloor q).
  { destruct q as [n d]. unfold int_of_float, Qfloor. simpl.
    apply Z.quot_div_nonneg; [|lia].
    unfold Qle in L. simpl in L. lia. }
  rewrite E.
  pose proof (Qfloor_resp_le _ _ L) as F0.
  pose proof (Qfloor_resp_le _ _ U) as F1.
  rewrite Qfloor_Z in F1. change (Qfloor 0) with 0 in F0. lia.
Qed.

Lemma clamp_float_range (limit : Z) (q : Q) :
  0 < limit -> 0 <= clamp_float limit q <= limit.
Proof.
  intros L. unfold clamp_float.
  destruct (Qle_bool q (inject_Z limit)) eqn:U; [|lia].
  destruct (Qle_bool 0 q) eqn:Z0; [|lia].
  apply int_of_float_in_range. unfold float_in_range. rewrite Z0, U.
  reflexivity.
Qed.

(** What the validator makes of a float, by cases. *)
Lemma truncated_range_float (limit : Z) (q : Q) :
  0 < limit ->
  truncated_range number number_leb (Float q) [Int 0; Int limit]
  = Ok (if float_in_range limit q then Float q
        else Int (clamp_float limit q)).
Proof.
  intros L. rewrite truncated_range_number by exact L.
  unfold float_in_range, clamp_float, number_leb. simpl number_value.
  change (inject_Z 0) with 0%Q.
  destruct (Qle_bool 0 q); destruct (Qle_bool q (inject_Z limit));
    reflexivity.
Qed.

(** On an [int], the methods on numbers are the methods on integers. *)
Lemma tune_number_int (limit p : Z) (self : Kusg245_250A) :
  configured limit self -> tune_number (Int p) self = tune p self.
Proof.
  intros [L [PL _]]. unfold tune_number, tune. rewrite PL.
  rewrite truncated_range_int, truncated_range_clamps by lia.
  reflexivity.
Qed.

Lemma set_power_setpoint_number_int (limit p : Z) (self : Kusg245_250A) :
  configured limit self ->
  set_power_setpoint_number (Int p) self = set_power_setpoint p self.
Proof.
  intros [L [_ PV]].
  unfold set_power_setpoint_number, set_power_setpoint, control_set_of,
    control_set.
  rewrite PV. simpl map.
  rewrite truncated_range_int, truncated_range_clamps by lia.
  reflexivity.
Qed.

(** On a [float]: the set-point setter sends the integer part of the
    truncated value; [tune] stops at the formatting when the float stays
    a float, and sends the bound otherwise. *)
Lemma set_power_setpoint_float (limit : Z) (q : Q) (self : Kusg245_250A) :
  configured limit self ->
  set_power_setpoint_number (Float q) self
  = write (String "A" (digits3 (clamp_float limit q))) self.
Proof.
  intros [L [_ PV]].
  pose proof (clamp_float_range limit q ltac:(lia)) as R.
  unfold set_power_setpoint_number, control_set_of. rewrite PV. simpl map.
  rewrite truncated_range_float by lia. rewrite lift_ok_bind.
  rewrite <- (format_0d_3_digits (clamp_float limit q)) by lia.
  unfold clamp_float, float_in_range in *.
  destruct (Qle_bool 0 q); destruct (Qle_bool q (inject_Z limit));
    reflexivity.
Qed.

Lemma tune_float (limit : Z) (q : Q) (self : Kusg245_250A) :
  configured limit self ->
  tune_number (Float q) self
  = if float_in_range limit q then (Raise ValueError, self)
    else write (String "b" (digits3 (clamp_float limit q))) self.
Proof.
  intros [L [PL _]].
  pose proof (clamp_float_range limit q ltac:(lia)) as R.
  unfold tune_number. rewrite PL.
  rewrite truncated_range_float by lia.
  destruct (float_in_range limit q); [reflexivity|].
  rewrite <- (format_0d_3_digits (clamp_float limit q)) by lia.
  reflexivity.
Qed.

Lemma init_configured (conn : connection) (limit : Z) (self : Kusg245_250A) :
  __init__ conn limit = Ok self ->
  configured limit self /\ adapter self = conn.
Proof.
  unfold __init__. intros I.
  destruct (Z.ltb_spec 0 limit); [|discriminate].
  destruct (Z.leb_spec limit 250); [|discriminate].
  simpl in I. injection I as <-. repeat split; auto.
Qed.

(** C3 (as stated, refuted).  On an instrument constructed with the limit
    100, [tune] on the float 50.5, a numeric power inside [0, 100], raises
    a [ValueError] at the formatting and transmits nothing. *)
Lemma tune_raises_on_float_in_range :
  float_in_range 100 50.5 = true
  /\ __init__ {| inbuf := ack; log := [] |} 100 = Ok (instrument ack 100)
  /\ tune_number (Float 50.5) (instrument ack 100)
     = (Raise ValueError, instrument ack 100)
  /\ written (log (adapter (snd (tune_number (Float 50.5) (instrument ack 100)))))
     = [].
Proof. repeat split. Qed.

(** C3 (amended).  On every instance constructed with a power limit in
    (0, 250]: for every integer power, [tune] and the [power_setpoint]
    setter clamp the value into [0, power_limit] and transmit it as a
    3-digit zero-padded decimal after 'b' and 'A'.  For every float power,
    the [power_setpoint] setter transmits in the same way the integer part
    of the value truncated into [0, power_limit]; [tune] does so when the
    float lies outside [0, power_limit] (the truncated value is then the
    bound), and on a float inside the range raises a [ValueError] and
    transmits nothing. *)
Theorem power_commands_by_type
    (power_limit : Z) (power : number) (conn : connection) :
  0 < power_limit <= 250 ->
  exists self,
    __init__ conn power_limit = Ok self /\
    match power with
    | Int p =>
        let c := clamp 0 power_limit p in
        0 <= c <= power_limit /\
        new_events self (snd (tune_number (Int p) self))
        = [EvWrite (String "b" (digits3 c)); EvRead] /\
        new_events self (snd (set_power_setpoint_number (Int p) self))
        = [EvWrite (String "A" (digits3 c)); EvRead]
    | Float q =>
        let c := clamp_float power_limit q in
        0 <= c <= power_limit /\
        new_events self (snd (set_power_setpoint_number (Float q) self))
        = [EvWrite (String "A" (digits3 c)); EvRead] /\
        if float_in_range power_limit q
        then tune_number (Float q) self = (Raise ValueError, self)
        else new_events self (snd (tune_number (Float q) self))
             = [EvWrite (String "b" (digits3 c)); EvRead]
    end.
Proof.
  intros H.
  destruct (power_commands_clamped power_limit
              match power with Int p => p | Float _ => 0 end conn H)
    as [self [I [B [_ [_ [T P]]]]]].
  exists self. split; [exact I|].
  destruct (init_configured _ _ _ I) as [C _].
  destruct power as [p | q]; cbv zeta.
  - rewrite (tune_number_int power_limit p self C).
    rewrite (set_power_setpoint_number_int power_limit p self C).
    auto.
  - pose proof (clamp_float_range power_limit q ltac:(lia)) as R.
    split; [exact R|]. split.
    + rewrite (set_power_setpoint_float power_limit q self C).
      apply write_action_events.
      apply digits3_command_expects_ack; [simpl; auto | lia].
    + rewrite (tune_float power_limit q self C).
      destruct (float_in_range power_limit q); [reflexivity|].
      apply write_action_events.
      apply digits3_command_expects_ack; [simpl; auto | lia].
Qed.

Lemma power_commands_by_type_witness :
  exists self,
    __init__ {| inbuf := ack; log := [] |} 100 = Ok self /\
    written (new_events self (snd (set_power_setpoint_number (Int 150) self)))
    = ["A100"%string] /\
    written (new_events self (snd (tune_number (Int 150) self)))
    = ["b100"%string].
Proof.
  destruct (power_commands_by_type 100 (Int 150) {| inbuf := ack; log := [] |}
              ltac:(lia)) as [self [I [_ [T P]]]].
  exists self. split; [exact I|].
  rewrite P, T. split; reflexivity.
Defined.

(* ===================================================================== *)
(** * Sessions and the power limit *)
(* ===================================================================== *)

Section Tracking.
Variable P : event -> Prop.

Lemma tracks_ret {A} (a : A) (self : Kusg245_250A) : tracks P (ret a) self.
Proof.
  unfold tracks. simpl. split; [reflexivity|]. split; [reflexivity|].
  exists []. split; [rewrite app_nil_r; reflexivity | constructor].
Qed.

Lemma tracks_raise {A} (e : exn) (self : Kusg245_250A) :
  tracks P (@raise A e) self.
Proof.
  unfold tracks. simpl. split; [reflexivity|]. split; [reflexivity|].
  exists []. split; [rewrite app_nil_r; reflexivity | constructor].
Qed.

Lemma tracks_lift {A} (r : result A) (self : Kusg245_250A) :
  tracks P (lift r) self.
Proof.
  unfold tracks. simpl. split; [reflexivity|]. split; [reflexivity|].
  exists []. split; [rewrite app_nil_r; reflexivity | constructor].
Qed.

Lemma tracks_bind {A B} (m : M A) (k : A -> M B) (self : Kusg245_250A) :
  tracks P m self ->
  (forall a, tracks P (k a) (snd (m self))) ->
  tracks P (bind m k) self.
Proof.
  unfold tracks, bind. intros [L [V [evs [E F]]]] K.
  destruct (m self) as [[a | e] self1]; simpl in *.
  - destruct (K a) as [L' [V' [evs' [E' F']]]].
    split; [congruence|]. split; [congruence|].
    exists (evs ++ evs'). split.
    + rewrite E', E, app_assoc. reflexivity.
    + apply Forall_app. auto.
  - split; [exact L|]. split; [exact V|]. exists evs. auto.
Qed.

Lemma tracks_ext {A} (m m' : M A) (self : Kusg245_250A) :
  m self = m' self -> tracks P m' self -> tracks P m self.
Proof. unfold tracks. intros ->. auto. Qed.

Lemma tracks_discard {A} (m : M A) (self : Kusg245_250A) :
  tracks P m self -> tracks P (discard m) self.
Proof.
  unfold tracks, discard. destruct (m self) as [[a | e] self1]; auto.
Qed.

Lemma tracks_adapter_write (command : string) (self : Kusg245_250A) :
  P (EvWrite command) -> tracks P (adapter_write command) self.
Proof.
  intros H. unfold tracks. simpl. split; [reflexivity|]. split; [reflexivity|].
  exists [EvWrite command]. auto.
Qed.

Lemma tracks_read (self : Kusg245_250A) : P EvRead -> tracks P read self.
Proof.
  intros H. unfold tracks, read.
  destruct (split_token (inbuf (emit EvRead (adapter self)))) as [[tok rest]|];
    simpl; (split; [reflexivity|]); (split; [reflexivity|]);
    exists [EvRead]; auto.
Qed.

Lemma tracks_read_bytes (count : nat) (self : Kusg245_250A) :
  P (EvReadBytes count) -> tracks P (read_bytes count) self.
Proof.
  intros H. unfold tracks, read_bytes.
  destruct (count <=? _)%nat;
    simpl; (split; [reflexivity|]); (split; [reflexivity|]);
    exists [EvReadBytes count]; auto.
Qed.

Lemma tracks_sleep (milliseconds : Z) (self : Kusg245_250A) :
  P (EvSleep milliseconds) -> tracks P (sleep milliseconds) self.
Proof.
  intros H. unfold tracks. simpl. split; [reflexivity|]. split; [reflexivity|].
  exists [EvSleep milliseconds]. auto.
Qed.

Lemma tracks_write (command : string) (self : Kusg245_250A) :
  P (EvWrite command) -> P EvRead -> tracks P (write command) self.
Proof.
  intros W R. unfold write.
  apply tracks_bind; [apply tracks_adapter_write; exact W|]. intros _.
  destruct (_is_expecting_acknowledgement command); [|apply tracks_ret].
  apply tracks_bind; [apply tracks_read; exact R|]. intros reply.
  destruct (String.eqb reply "A"); [apply tracks_ret | apply tracks_raise].
Qed.

End Tracking.

(** Steps through a method body: binds, primitives and branches; what is
    left is what [P] has to hold of. *)
Ltac track :=
  repeat match goal with
    | |- tracks _ (write _) _ => apply tracks_write
    | |- tracks _ read _ => apply tracks_read
    | |- tracks _ (read_bytes _) _ => apply tracks_read_bytes
    | |- tracks _ (sleep _) _ => apply tracks_sleep
    | |- tracks _ (ret _) _ => apply tracks_ret
    | |- tracks _ (raise _) _ => apply tracks_raise
    | |- tracks _ (lift _) _ => apply tracks_lift
    | |- tracks _ (discard _) _ => apply tracks_discard
    | |- tracks _ (bind _ _) _ => apply tracks_bind; [|intro]
    | |- tracks _ (if ?b then _ else _) _ => destruct b
    end.

(** Closes [within_limit] of an event that is no power command, or is
    the power set-point query. *)
Ltac no_power_command :=
  solve [ exact I
        | cbn [within_limit append pulse_command];
          split; (let H := fresh in intro H; discriminate H)
        | cbn [within_limit append];
          split; [intros _; left; reflexivity
                 | let H := fresh in intro H; discriminate H] ].

Lemma power_operations_track (limit : Z) (letter : ascii) (power : Z)
    (self : Kusg245_250A) :
  0 < limit <= 250 ->
  tracks (within_limit limit)
    (power' <- lift (truncated_range Z Z.leb power [0; limit]) ;;
     write (String letter (format_0d 3 power'))) self.
Proof.
  intros L. rewrite truncated_range_clamps by lia.
  apply tracks_ext with (m' := write (String letter (digits3 (clamp 0 limit power)))).
  - rewrite lift_ok_bind, format_0d_3_digits by (unfold clamp; lia).
    reflexivity.
  - apply tracks_write; [|exact I].
    simpl. split; intros _; [right|]; exists (clamp 0 limit power);
      (split; [unfold clamp; lia | reflexivity]).
Qed.

Lemma float_power_tracks (limit : Z) (letter : ascii) (q : Q)
    (self : Kusg245_250A) :
  0 < limit <= 250 ->
  tracks (within_limit limit)
    (write (String letter (digits3 (clamp_float limit q)))) self.
Proof.
  intros L. pose proof (clamp_float_range limit q ltac:(lia)) as R.
  apply tracks_write; [|exact I].
  simpl. split; intros _; [right|]; exists (clamp_float limit q); auto.
Qed.

Lemma control_set_of_tracks {T V} (P : event -> Prop) (set_command : V -> string)
    (validator : T -> list T -> result T) (values : Kusg245_250A -> list T)
    (set_process : T -> V) (value : T) (self : Kusg245_250A) :
  (forall v, P (EvWrite (set_command (set_process v)))) ->
  P EvRead ->
  tracks P (control_set_of set_command validator values set_process value) self.
Proof.
  intros W R.
  apply tracks_ext
    with (m' := value' <- lift (validator value (values self)) ;;
                write (set_command (set_process value'))); [reflexivity|].
  track; auto.
Qed.

Lemma control_set_as_tracks {V} (P : event -> Prop) (set_command : V -> string)
    (validator : Z -> list Z -> result Z) (values : Kusg245_250A -> list Z)
    (set_process : Z -> V) (value : Z) (self : Kusg245_250A) :
  (forall v, P (EvWrite (set_command (set_process v)))) ->
  P EvRead ->
  tracks P (control_set_as set_command validator values set_process value) self.
Proof.
  intros W R.
  apply tracks_ext
    with (m' := value' <- lift (validator value (values self)) ;;
                write (set_command (set_process value'))); [reflexivity|].
  track; auto.
Qed.

(** Every operation, on an instrument configured for [limit], leaves the
    configuration alone and adds only events within the limit. *)
Lemma perform_tracks (limit : Z) (op : operation) (self : Kusg245_250A) :
  configured limit self ->
  tracks (within_limit limit) (perform op) self.
Proof.
  intros C. pose proof C as [L [PL PV]].
  destruct op; cbn [perform];
    try (unfold shutdown, turn_on, version, temperature, power_setpoint,
           pulse_width, off_time;
         unfold voltage_5v, voltage_32v, power_forward, power_reverse,
           external_enabled, set_external_enabled, bias_enabled,
           set_bias_enabled, rf_enabled, set_rf_enabled, pulse_mode_enabled,
           set_pulse_mode_enabled, frequency_coarse, frequency_fine,
           freq_steps_fine_enabled, raw_query,
           control_get, phase_shift, set_phase_shift, reflection_limit,
           set_reflection_limit, clear_VSWR_error, store_settings,
           invalid_termination;
         try destruct value; cbv iota;
         track; no_power_command).
  - (* set_frequency_coarse *)
    apply (control_set_as_tracks (V := Z)); [intro|]; no_power_command.
  - (* set_frequency_fine *)
    apply (control_set_as_tracks (V := Z)); [intro|]; no_power_command.
  - (* set_power_setpoint *)
    apply tracks_ext
      with (m' := power' <- lift (truncated_range Z Z.leb value [0; limit]) ;;
                  write (String "A" (format_0d 3 power'))).
    + unfold set_power_setpoint, control_set. rewrite PV. reflexivity.
    + apply power_operations_track. exact L.
  - (* set_pulse_width *)
    apply control_set_as_tracks; [intro|]; no_power_command.
  - (* set_off_time *)
    apply control_set_as_tracks; [intro|]; no_power_command.
  - (* tune *)
    apply tracks_ext
      with (m' := power' <- lift (truncated_range Z Z.leb power [0; limit]) ;;
                  write (String "b" (format_0d 3 power'))).
    + unfold tune. rewrite PL. reflexivity.
    + apply power_operations_track. exact L.
  - (* set_freq_steps_fine_enabled *)
    apply control_set_of_tracks; [intro|]; no_power_command.
  - (* set_power_setpoint on a float *)
    apply tracks_ext
      with (m' := write (String "A" (digits3 (clamp_float limit value)))).
    + apply set_power_setpoint_float. exact C.
    + apply float_power_tracks. exact L.
  - (* tune on a float *)
    destruct (float_in_range limit power) eqn:R.
    + apply tracks_ext with (m' := raise ValueError); [|apply tracks_raise].
      rewrite (tune_float limit power self C), R. reflexivity.
    + apply tracks_ext
        with (m' := write (String "b" (digits3 (clamp_float limit power)))).
      * rewrite (tune_float limit power self C), R. reflexivity.
      * apply float_power_tracks. exact L.
Qed.

Lemma perform_keeps_configured (limit : Z) (op : operation) (self : Kusg245_250A) :
  configured limit self -> configured limit (snd (perform op self)).
Proof.
  intros C. destruct (perform_tracks limit op self C) as [PL [PV _]].
  destruct C as [L [PL0 PV0]]. repeat split; try lia; congruence.
Qed.

(** X4.  On an instrument constructed with a power limit, whatever the
    caller does afterwards (any accessor or action of the class, powers
    given as integers or as floats), in whatever order and whatever the
    device answers, every command that is ever written and starts with 'b'
    (tune) carries three decimal digits of a power between 0 and the
    limit, every one that starts with 'A' does so too or is the power
    set-point query 'A?', and the limit itself is never changed. *)
Theorem power_limit_never_exceeded
    (conn : connection) (limit : Z) (ops : list operation)
    (self : Kusg245_250A) :
  __init__ conn limit = Ok self ->
  Forall (within_limit limit) (log conn) ->
  _power_limit (session ops self) = limit /\
  power_setpoint_values (session ops self) = [0; limit] /\
  Forall (within_limit limit) (log (adapter (session ops self))).
Proof.
  intros I F.
  assert (C : configured limit self /\ log (adapter self) = log conn).
  { unfold __init__ in I.
    destruct (Z.ltb_spec 0 limit); [|discriminate].
    destruct (Z.leb_spec limit 250); [|discriminate].
    simpl in I. injection I as <-. repeat split; auto. }
  destruct C as [C E]. rewrite <- E in F. clear I E conn.
  revert self C F. unfold session.
  induction ops as [|op ops IH]; intros self C F; simpl.
  - destruct C as [_ [PL PV]]. auto.
  - apply IH.
    + apply perform_keeps_configured. exact C.
    + destruct (perform_tracks limit op self C) as [_ [_ [evs [E F']]]].
      rewrite E. apply Forall_app. auto.
Qed.

Lemma power_limit_never_exceeded_witness :
  _power_limit
    (session [SetPowerSetpoint 150; TuneFloat 50.5; GetPowerSetpoint; Tune 300]
       (instrument (ack ++ [x31; x30; x30; x0d; x42; x0d]) 100)) = 100
  /\ written
       (log (adapter
               (session
                  [SetPowerSetpoint 150; TuneFloat 50.5; GetPowerSetpoint; Tune 300]
                  (instrument (ack ++ [x31; x30; x30; x0d; x42; x0d]) 100))))
     = ["A100"; "A?"; "b100"]%string
  /\ Forall (within_limit 100)
       (log (adapter
               (session
                  [SetPowerSetpoint 150; TuneFloat 50.5; GetPowerSetpoint; Tune 300]
                  (instrument (ack ++ [x31; x30; x30; x0d; x42; x0d]) 100)))).
Proof.
  destruct (power_limit_never_exceeded
              {| inbuf := ack ++ [x31; x30; x30; x0d; x42; x0d]; log := [] |} 100
              [SetPowerSetpoint 150; TuneFloat 50.5; GetPowerSetpoint; Tune 300]
              (instrument (ack ++ [x31; x30; x30; x0d; x42; x0d]) 100)
              eq_refl (Forall_nil _)) as [L [_ F]].
  split; [exact L|]. split; [reflexivity | exact F].
Defined.

(* ===================================================================== *)
(** * Set operations as single exchanges *)
(* ===================================================================== *)

Lemma coarse_payloads_ok (c : Z) :
  2400 <= c <= 2500 -> coarse_payload_ok c = true.
Proof.
  intros H.
  apply (forallb_zrange coarse_payload_ok 2400 101); [|lia].
  vm_compute. reflexivity.
Qed.

Lemma pulse_payloads_ok (c : Z) :
  10 <= c <= 1000 -> pulse_payload_ok c = true.
Proof.
  intros H.
  apply (forallb_zrange pulse_payload_ok 10 991); [|lia].
  vm_compute. reflexivity.
Qed.

(** An operation that is one acknowledged [write]. *)
Lemma single_exchange {A} (m : M A) (command : string) (self : Kusg245_250A)
    (r : result unit) :
  _is_expecting_acknowledgement command = true ->
  snd (m self) = snd (write command self) ->
  r = fst (write command self) ->
  new_events self (snd (m self)) = [EvWrite command; EvRead] /\
  match r with
  | Ok _ => acknowledged self = true
  | Raise e =>
      acknowledged self = false /\ (e = protocol_violation \/ e = VisaTimeout)
  end.
Proof.
  intros E S R. rewrite S, R. split.
  - apply write_action_events. exact E.
  - apply write_action_outcome. exact E.
Qed.

Lemma set_phase_shift_is_write (value : Q) (self : Kusg245_250A) :
  exists code : Z,
    0 <= code <= 255 /\
    set_phase_shift value self = write (String "H" (digits3 code)) self.
Proof.
  destruct (truncated_phase value) as [v [T [L [U _]]]].
  pose proof (round_of_phase v L U) as R.
  exists (round v * 256 / 360).
  assert (C : 0 <= round v * 256 / 360 <= 255).
  { split.
    - apply Z.div_pos; lia.
    - apply Z.lt_succ_r. apply Z.div_lt_upper_bound; lia. }
  split; [exact C|].
  unfold set_phase_shift. rewrite T, lift_ok_bind.
  rewrite phase_code_of_degrees by lia.
  rewrite format_0d_3_digits by lia. reflexivity.
Qed.

(** The command of each single-command operation on a configured
    instrument. *)
Lemma single_command_is_write (limit : Z) (op : operation) (self : Kusg245_250A) :
  configured limit self ->
  is_single_command op = true ->
  exists command : string,
    _is_expecting_acknowledgement command = true /\
    perform op self = write command self.
Proof.
  intros [L [PL PV]] S.
  destruct op; try discriminate S; cbn [perform].
  - destruct value; [exists "R"%string | exists "r"%string]; split; reflexivity.
  - destruct value; [exists "X"%string | exists "x"%string]; split; reflexivity.
  - destruct value; [exists "O"%string | exists "o"%string]; split; reflexivity.
  - destruct value; [exists "P"%string | exists "p"%string]; split; reflexivity.
  - (* set_frequency_coarse *)
    pose proof (coarse_payloads_ok (clamp 2400 2500 value)
                  ltac:(unfold clamp; lia)) as K.
    unfold coarse_payload_ok in K. cbv zeta in K.
    apply andb_prop in K. destruct K as [K _].
    apply andb_prop in K. destruct K as [K _].
    apply andb_prop in K. destruct K as [K _].
    apply andb_prop in K. destruct K as [_ Ack].
    eexists. split; [exact Ack|].
    unfold set_frequency_coarse, control_set.
    rewrite truncated_range_clamps by lia. reflexivity.
  - (* set_frequency_fine *)
    set (c := clamp 2400000 2500000 value).
    assert (C : 2400000 <= c <= 2500000) by (unfold c, clamp; lia).
    destruct (round_int_tens c) as [M _]. cbv zeta in M.
    pose proof (fine_payloads_ok _ (round_int_tens_range c C) M) as K.
    unfold fine_payload_ok in K. cbv zeta in K.
    apply andb_prop in K. destruct K as [_ Ack].
    eexists. split; [exact Ack|].
    unfold set_frequency_fine, control_set.
    rewrite truncated_range_clamps by lia. reflexivity.
  - (* set_power_setpoint *)
    exists (String "A" (digits3 (clamp 0 limit value))). split.
    + apply digits3_command_expects_ack; [simpl; auto | unfold clamp; lia].
    + unfold set_power_setpoint, control_set. rewrite PV.
      rewrite truncated_range_clamps by lia. rewrite lift_ok_bind.
      rewrite format_0d_3_digits by (unfold clamp; lia). reflexivity.
  - (* set_pulse_width *)
    pose proof (pulse_payloads_ok (clamp 10 1000 value)
                  ltac:(unfold clamp; lia)) as K.
    unfold pulse_payload_ok in K. cbv zeta in K.
    apply andb_prop in K. destruct K as [K _].
    apply andb_prop in K. destruct K as [_ Ack].
    eexists. split; [exact Ack|].
    unfold set_pulse_width, control_set_as.
    rewrite truncated_range_clamps by lia. reflexivity.
  - (* set_off_time *)
    pose proof (pulse_payloads_ok (clamp 10 1000 value)
                  ltac:(unfold clamp; lia)) as K.
    unfold pulse_payload_ok in K. cbv zeta in K.
    apply andb_prop in K. destruct K as [_ Ack].
    eexists. split; [exact Ack|].
    unfold set_off_time, control_set_as.
    rewrite truncated_range_clamps by lia. reflexivity.
  - (* set_phase_shift *)
    destruct (set_phase_shift_is_write value self) as [code [C E]].
    exists (String "H" (digits3 code)). split; [|exact E].
    apply digits3_command_expects_ack; [simpl; auto | lia].
  - (* set_reflection_limit *)
    eexists. split; [apply (reflection_command_expects_ack value)|].
    apply set_reflection_limit_is_write.
  - (* tune *)
    exists (String "b" (digits3 (clamp 0 limit power))). split.
    + apply digits3_command_expects_ack; [simpl; auto | unfold clamp; lia].
    + unfold tune. rewrite PL.
      rewrite truncated_range_clamps by lia. rewrite lift_ok_bind.
      rewrite format_0d_3_digits by (unfold clamp; lia). reflexivity.
  - exists "z"%string. split; reflexivity.
  - exists "SE"%string. split; reflexivity.
Qed.

(** X5.  On a configured instrument, every set operation and every simple
    action (the boolean switches, both frequencies, the power set-point,
    the pulse times, the phase, the reflection limit, tuning, clearing the
    VSWR error, storing the settings) is exactly one exchange: one command
    that awaits an acknowledgement is written, one reply token is read,
    and the call returns normally exactly when that token is 'A'; it
    raises "Expected acknowledgment." or times out otherwise. *)
Theorem set_operations_single_exchange
    (limit : Z) (op : operation) (self : Kusg245_250A) :
  configured limit self ->
  is_single_command op = true ->
  exists command : string,
    _is_expecting_acknowledgement command = true /\
    new_events self (snd (perform op self)) = [EvWrite command; EvRead] /\
    match fst (perform op self) with
    | Ok _ => acknowledged self = true
    | Raise e =>
        acknowledged self = false /\
        (e = ConnectionError "Expected acknowledgment." \/ e = VisaTimeout)
    end.
Proof.
  intros C S.
  destruct (single_command_is_write limit op self C S) as [command [E W]].
  exists command. split; [exact E|].
  apply (single_exchange (perform op) command self _ E); rewrite W; reflexivity.
Qed.

Lemma set_operations_single_exchange_witness :
  exists command : string,
    _is_expecting_acknowledgement command = true /\
    new_events (instrument [x42; x0d] 100)
      (snd (perform (SetPulseWidth 13) (instrument [x42; x0d] 100)))
    = [EvWrite command; EvRead] /\
    match fst (perform (SetPulseWidth 13) (instrument [x42; x0d] 100)) with
    | Ok _ => acknowledged (instrument [x42; x0d] 100) = true
    | Raise e =>
        acknowledged (instrument [x42; x0d] 100) = false /\
        (e = ConnectionError "Expected acknowledgment." \/ e = VisaTimeout)
    end.
Proof.
  apply (set_operations_single_exchange 100 (SetPulseWidth 13)
           (instrument [x42; x0d] 100)).
  - unfold configured. simpl. repeat split; lia.
  - reflexivity.
Defined.

(* ===================================================================== *)
(** * Pulse times *)
(* ===================================================================== *)

(** X6.  Setting the pulse width or the off time clamps the integer value
    into [10, 1000] ms and transmits, after 'C' (pulse width) or 'c' (off
    time), the 4-digit zero-padded decimal of a multiple of 5 within
    [10, 1000] that is at most 2 away from the clamped value. *)
Theorem pulse_times_rounded_to_five (value : Z) (self : Kusg245_250A) :
  exists r : Z,
    10 <= r <= 1000 /\
    r mod 5 = 0 /\
    Z.abs (r - clamp 10 1000 value) <= 2 /\
    new_events self (snd (set_pulse_width value self))
    = [EvWrite (String "C" (digits4 r)); EvRead] /\
    new_events self (snd (set_off_time value self))
    = [EvWrite (String "c" (digits4 r)); EvRead].
Proof.
  set (c := clamp 10 1000 value).
  pose proof (pulse_payloads_ok c ltac:(unfold c, clamp; lia)) as K.
  unfold pulse_payload_ok in K. cbv zeta in K.
  repeat (let H := fresh "K" in apply andb_prop in K; destruct K as [K H]).
  exists (int_of_float (pulse_set_process c)).
  apply Z.leb_le in K, K5. apply Z.eqb_eq in K4. apply Z.leb_le in K3.
  apply String.eqb_eq in K2.
  split; [lia|]. split; [exact K4|]. split; [exact K3|].
  split.
  - unfold set_pulse_width, control_set_as.
    rewrite truncated_range_clamps by lia. rewrite lift_ok_bind. fold c.
    rewrite write_action_events by exact K1.
    unfold pulse_command. rewrite K2. reflexivity.
  - unfold set_off_time, control_set_as.
    rewrite truncated_range_clamps by lia. rewrite lift_ok_bind. fold c.
    rewrite write_action_events by exact K0.
    unfold pulse_command. rewrite K2. reflexivity.
Qed.

(* ===================================================================== *)
(** * Frequency replies *)
(* ===================================================================== *)

Lemma split_token_app (tok rest : list byte) :
  existsb (Byte.eqb termination_character) tok = false ->
  split_token (tok ++ termination_character :: rest) = Some (tok, rest).
Proof.
  induction tok as [|x tok IH]; simpl; intros H.
  - reflexivity.
  - apply orb_false_elim in H. destruct H as [X H].
    assert (E : Byte.eqb x termination_character = false).
    { destruct (Byte.eqb x termination_character) eqn:E; [|reflexivity].
      apply byte_dec_bl in E. subst x. discriminate X. }
    rewrite E, (IH H). reflexivity.
Qed.

(** A get of a declared property, on a reply that arrives as one token. *)
Lemma control_get_decodes {A} (query : string) (get_process : string -> result A)
    (self : Kusg245_250A) (reply : string) (rest : list byte) :
  _is_expecting_acknowledgement query = false ->
  one_token reply = true ->
  fst (control_get query get_process
         (receiving self
            (list_byte_of_string reply ++ termination_character :: rest)))
  = get_process reply.
Proof.
  intros E T. unfold control_get, bind at 1. rewrite (write_query _ _ E).
  unfold bind, read. cbn [adapter with_adapter emit inbuf receiving].
  unfold one_token in T. apply negb_true_iff in T.
  rewrite (split_token_app _ rest T).
  rewrite string_of_list_byte_of_string. unfold lift.
  destruct (get_process reply); reflexivity.
Qed.

Lemma fine_replies_ok (r : Z) :
  2400000 <= r <= 2500000 -> r mod 10 = 0 -> fine_reply_ok r = true.
Proof.
  intros H M.
  pose proof (Z.div_mod r 10 ltac:(lia)) as D. rewrite M in D.
  replace r with (10 * (r / 10)) by lia.
  apply (forallb_zrange (fun k => fine_reply_ok (10 * k))
           240000 (Z.to_nat 10001)).
  - vm_compute. reflexivity.
  - lia.
Qed.

(** X7.  Setting the coarse frequency clamps the integer value into
    [2400, 2500] MHz and transmits 'f' followed by its 4-digit decimal;
    when the device reports that number followed by "MHz", the coarse
    getter returns the clamped value again. *)
Theorem coarse_frequency_round_trip
    (value : Z) (setter getter : Kusg245_250A) (rest : list byte) :
  let c := clamp 2400 2500 value in
  new_events setter (snd (set_frequency_coarse value setter))
  = [EvWrite (String "f" (digits4 c)); EvRead] /\
  fst (frequency_coarse
         (receiving getter
            (list_byte_of_string (digits4 c ++ "MHz")
             ++ termination_character :: rest)))
  = Ok (Some c).
Proof.
  cbv zeta. set (c := clamp 2400 2500 value).
  pose proof (coarse_payloads_ok c ltac:(unfold c, clamp; lia)) as K.
  unfold coarse_payload_ok in K. cbv zeta in K.
  repeat (let H := fresh "K" in apply andb_prop in K; destruct K as [K H]).
  apply String.eqb_eq in K. rewrite <- K.
  split.
  - unfold set_frequency_coarse, control_set.
    rewrite truncated_range_clamps by lia. rewrite lift_ok_bind. fold c.
    apply write_action_events. exact K3.
  - unfold frequency_coarse.
    rewrite control_get_decodes by (reflexivity || exact K2).
    destruct (frequency_coarse_get_process _) as [[n|]|e]; try discriminate K1.
    apply Z.eqb_eq in K1. subst n. reflexivity.
Qed.

(** X8.  Both frequency getters send the same query 'f?' and tell the
    mode by the unit of the reply.  For every value the fine setter is
    given, the reply that reports the transmitted frequency followed by
    "kHz" makes the fine getter return that frequency and the coarse
    getter return [None]; and the reply that reports a coarse frequency
    in "MHz" makes the fine getter return [None]. *)
Theorem frequency_replies_by_unit
    (fine coarse : Z) (self : Kusg245_250A) (rest : list byte) :
  let r := round_int (clamp 2400000 2500000 fine) (-1) in
  let c := clamp 2400 2500 coarse in
  let khz := list_byte_of_string (format_0d 7 r ++ "kHz")
             ++ termination_character :: rest in
  let mhz := list_byte_of_string (format_0d 4 c ++ "MHz")
             ++ termination_character :: rest in
  new_events self (snd (frequency_fine (receiving self khz)))
  = [EvWrite "f?"; EvRead] /\
  new_events self (snd (frequency_coarse (receiving self khz)))
  = [EvWrite "f?"; EvRead] /\
  fst (frequency_fine (receiving self khz)) = Ok (Some r) /\
  fst (frequency_coarse (receiving self khz)) = Ok None /\
  fst (frequency_fine (receiving self mhz)) = Ok None.
Proof.
  cbv zeta.
  set (cf := clamp 2400000 2500000 fine).
  assert (C : 2400000 <= cf <= 2500000) by (unfold cf, clamp; lia).
  destruct (round_int_tens cf) as [M _]. cbv zeta in M.
  pose proof (fine_replies_ok _ (round_int_tens_range cf C) M) as K.
  unfold fine_reply_ok in K. cbv zeta in K.
  repeat (let H := fresh "K" in apply andb_prop in K; destruct K as [K H]).
  pose proof (coarse_payloads_ok (clamp 2400 2500 coarse)
                ltac:(unfold clamp; lia)) as J.
  unfold coarse_payload_ok in J. cbv zeta in J.
  repeat (let H := fresh "J" in apply andb_prop in J; destruct J as [J H]).
  assert (E : forall A (gp : string -> result A) (incoming : list byte),
             new_events self (snd (control_get "f?" gp (receiving self incoming)))
             = [EvWrite "f?"; EvRead]).
  { intros A gp incoming. apply new_events_app.
    unfold control_get, bind at 1. rewrite (write_query "f?" _ eq_refl).
    unfold bind, read. cbn [adapter with_adapter emit inbuf log receiving].
    destruct (split_token incoming) as [[tok rest']|]; simpl.
    - destruct (gp (string_of_list_byte tok)); simpl;
        rewrite <- app_assoc; reflexivity.
    - rewrite <- app_assoc. reflexivity. }
  split; [apply E|]. split; [apply E|].
  unfold frequency_fine, frequency_coarse.
  rewrite !control_get_decodes by (reflexivity || assumption).
  split; [|split].
  - clear J0 J1 K0.
    destruct (frequency_fine_get_process _) as [[n|]|e]; try discriminate K1.
    apply Z.eqb_eq in K1. subst n. reflexivity.
  - clear J0 J1 K1.
    destruct (frequency_coarse_get_process _) as [[n|]|e];
      try discriminate K0. reflexivity.
  - clear J1 K0 K1.
    destruct (frequency_fine_get_process _) as [[n|]|e];
      try discriminate J0. reflexivity.
Qed.

(* ===================================================================== *)
(** * Reading a phase and writing it back *)
(* ===================================================================== *)

Lemma phase_codes_write_back (k : Z) :
  0 <= k <= 255 -> phase_write_back_ok k = true.
Proof.
  intros H.
  apply (forallb_zrange phase_write_back_ok 0 256); [|lia].
  vm_compute. reflexivity.
Qed.

(** X9.  For every phase code the device can report, the phase the getter
    decodes from it, given back to the setter, is transmitted as the same
    code or as the code just below it, never as a higher one (code 1
    decodes to 1.40625 degrees, which is written back as code 0). *)
Theorem phase_write_back
    (c : byte) (getter setter : Kusg245_250A) (rest : list byte) :
  let k := Z.of_N (Byte.to_N c) in
  exists (q : Q) (k' : Z),
    fst (phase_shift (receiving getter (c :: termination_character :: rest)))
    = Ok q /\
    new_events setter (snd (set_phase_shift q setter))
    = [EvWrite (String "H" (digits3 k')); EvRead] /\
    (k' = k \/ k' = k - 1) /\
    0 <= k' /\
    phase_code_written_back 1 = 0.
Proof.
  cbv zeta. set (k := Z.of_N (Byte.to_N c)).
  assert (B : 0 <= k <= 255).
  { pose proof (Byte.to_N_bounded c). unfold k. lia. }
  pose proof (phase_codes_write_back k B) as K.
  unfold phase_write_back_ok in K. cbv zeta in K.
  apply andb_prop in K. destruct K as [K W].
  apply andb_prop in K. destruct K as [L U].
  apply Qle_bool_iff in L, U.
  set (q := (inject_Z k / 256 * 360)%Q) in *.
  exists q, (phase_code_written_back k).
  destruct (truncated_phase q) as [v [T [_ [_ V]]]].
  rewrite (V L U) in T. clear v V.
  pose proof (round_of_phase q L U) as R.
  assert (P : phase_code_written_back k = round q * 256 / 360).
  { unfold phase_code_written_back. fold q.
    apply phase_code_of_degrees. lia. }
  assert (N : 0 <= phase_code_written_back k).
  { rewrite P. apply Z.div_pos; lia. }
  split; [|split; [|split; [|split]]].
  - unfold phase_shift.
    rewrite (query_frame "H?" _
               (receiving getter (c :: termination_character :: rest))
               [c; termination_character] rest eq_refl eq_refl).
    rewrite (good_terminator_accepts _ [c]). reflexivity.
  - unfold set_phase_shift. rewrite T, lift_ok_bind.
    fold (phase_code_written_back k) in P.
    change (int_of_float (inject_Z (round q) / 360 * 256))
      with (phase_code_written_back k).
    apply orb_prop in W.
    rewrite format_0d_3_digits
      by (destruct W as [W | W]; apply Z.eqb_eq in W; lia).
    simpl append. apply write_action_events.
    apply digits3_command_expects_ack; [simpl; auto|].
    destruct W as [W | W]; apply Z.eqb_eq in W; lia.
  - apply orb_prop in W. destruct W as [W | W]; apply Z.eqb_eq in W; auto.
  - exact N.
  - reflexivity.
Qed.

(* ===================================================================== *)
(** * Compound operations: the second reply *)
(* ===================================================================== *)

(** X10.  When the device acknowledges the first command of a compound
    operation, the second command is written and the reply to it decides
    the outcome: [turn_on] has written 'X', paused 500 ms and written 'O',
    [shutdown] has written 'o' and 'x', both have read two reply tokens,
    and the call returns normally when the second token is 'A' and raises
    "Expected acknowledgment." otherwise, with both commands already
    sent. *)
Theorem compound_operations_second_reply
    (self : Kusg245_250A) (tok rest1 rest2 : list byte) :
  split_token (inbuf (adapter self)) = Some ([x41], rest1) ->
  split_token rest1 = Some (tok, rest2) ->
  (new_events self (snd (turn_on self))
   = [EvWrite "X"; EvRead; EvSleep 500; EvWrite "O"; EvRead] /\
   inbuf (adapter (snd (turn_on self))) = rest2 /\
   (tok = [x41] -> fst (turn_on self) = Ok tt) /\
   (tok <> [x41] ->
    fst (turn_on self) = Raise (ConnectionError "Expected acknowledgment.")))
  /\
  (new_events self (snd (shutdown self))
   = [EvWrite "o"; EvRead; EvWrite "x"; EvRead] /\
   inbuf (adapter (snd (shutdown self))) = rest2 /\
   (tok = [x41] -> fst (shutdown self) = Ok tt) /\
   (tok <> [x41] ->
    fst (shutdown self) = Raise (ConnectionError "Expected acknowledgment."))).
Proof.
  intros S1 S2.
  assert (W : forall first second pause,
             _is_expecting_acknowledgement first = true ->
             _is_expecting_acknowledgement second = true ->
             let mid := with_adapter self
                          {| inbuf := rest1;
                             log := (log (adapter self) ++ [EvWrite first; EvRead])
                                    ++ pause |} in
             write first self
             = (Ok tt, with_adapter self
                         {| inbuf := rest1;
                            log := log (adapter self) ++ [EvWrite first; EvRead] |})
             /\ new_events self (snd (write second mid))
                = EvWrite first :: EvRead :: pause ++ [EvWrite second; EvRead]
             /\ inbuf (adapter (snd (write second mid))) = rest2
             /\ (tok = [x41] -> fst (write second mid) = Ok tt)
             /\ (tok <> [x41] -> fst (write second mid) = Raise protocol_violation)).
  { intros first second pause E1 E2 mid.
    split; [rewrite (write_action _ _ E1), S1; reflexivity|].
    split; [apply (two_writes_events first second pause self mid E2);
            unfold mid; simpl; rewrite <- app_assoc; reflexivity|].
    rewrite (write_action _ _ E2). unfold mid at 1 2 3. simpl inbuf.
    rewrite S2. simpl. split; [reflexivity|]. split.
    - intros ->. reflexivity.
    - intros N. rewrite (reply_not_A _ N). reflexivity. }
  split.
  - destruct (W "X"%string "O"%string [EvSleep 500] eq_refl eq_refl)
      as [F [E [I [A N]]]].
    assert (T : turn_on self
                = write "O"
                    (with_adapter self
                       {| inbuf := rest1;
                          log := (log (adapter self) ++ [EvWrite "X"; EvRead])
                                 ++ [EvSleep 500] |})).
    { unfold turn_on, set_bias_enabled, set_rf_enabled, bind.
      rewrite F. reflexivity. }
    rewrite T. auto.
  - destruct (W "o"%string "x"%string [] eq_refl eq_refl)
      as [F [E [I [A N]]]].
    assert (T : shutdown self
                = write "x"
                    (with_adapter self
                       {| inbuf := rest1;
                          log := (log (adapter self) ++ [EvWrite "o"; EvRead])
                                 ++ [] |})).
    { unfold shutdown, set_bias_enabled, set_rf_enabled, bind.
      rewrite F, app_nil_r. reflexivity. }
    rewrite T. auto.
Qed.

Lemma compound_operations_second_reply_witness :
  written (new_events (instrument (ack ++ [x42; x0d]) 250)
             (snd (turn_on (instrument (ack ++ [x42; x0d]) 250))))
  = ["X"; "O"]%string
  /\ fst (turn_on (instrument (ack ++ [x42; x0d]) 250))
     = Raise (ConnectionError "Expected acknowledgment.")
  /\ fst (shutdown (instrument (ack ++ ack) 250)) = Ok tt.
Proof.
  destruct (compound_operations_second_reply
              (instrument (ack ++ [x42; x0d]) 250) [x42] [x42; x0d] []
              eq_refl eq_refl) as [[E [_ [_ N]]] _].
  destruct (compound_operations_second_reply
              (instrument (ack ++ ack) 250) [x41] ack []
              eq_refl eq_refl) as [_ [_ [_ [A _]]]].
  rewrite E, (N ltac:(discriminate)), (A eq_refl). repeat split.
Defined.

(* ===================================================================== *)
(** * Queries as single exchanges *)
(* ===================================================================== *)

Lemma silent_keeps_log {A} (m : M A) (self : Kusg245_250A) :
  tracks (fun _ => False) m self ->
  log (adapter (snd (m self))) = log (adapter self).
Proof.
  intros [_ [_ [evs [E F]]]]. destruct evs as [|e evs].
  - rewrite E. apply app_nil_r.
  - inversion F; contradiction.
Qed.

Lemma discard_snd {A} (m : M A) (self : Kusg245_250A) :
  snd (discard m self) = snd (m self).
Proof. unfold discard. destruct (m self) as [[a | e] self']; reflexivity. Qed.

(** A binary query: the query and the read of the frame are all that
    happens on the adapter, whatever arrives. *)
Lemma binary_query_events {A} (query : string) (count : nat)
    (k : list byte -> M A) (self : Kusg245_250A) :
  _is_expecting_acknowledgement query = false ->
  (forall b s, tracks (fun _ => False) (k b) s) ->
  new_events self (snd ((write query ;; b <- read_bytes count ;; k b) self))
  = [EvWrite query; EvReadBytes count].
Proof.
  intros E K. apply new_events_app.
  unfold bind at 1. rewrite (write_query _ _ E).
  unfold bind, read_bytes.
  cbn [adapter with_adapter emit inbuf log].
  destruct (count <=? _)%nat.
  - match goal with
    | |- context [k ?b ?s] =>
        pose proof (silent_keeps_log (k b) s (K b s)) as L;
        destruct (k b s) as [r s']
    end.
    simpl in L |- *. rewrite L, <- app_assoc. reflexivity.
  - simpl. rewrite <- app_assoc. reflexivity.
Qed.

(** A query of a declared property: the query and the read of one reply
    token. *)
Lemma control_get_events {A} (query : string) (get_process : string -> result A)
    (self : Kusg245_250A) :
  _is_expecting_acknowledgement query = false ->
  new_events self (snd (control_get query get_process self))
  = [EvWrite query; EvRead].
Proof.
  intros E. apply new_events_app.
  unfold control_get, bind at 1. rewrite (write_query _ _ E).
  unfold bind, read. cbn [adapter with_adapter emit inbuf log].
  destruct (split_token (inbuf (adapter self))) as [[tok rest]|]; simpl.
  - destruct (get_process (string_of_list_byte tok)); simpl;
      rewrite <- app_assoc; reflexivity.
  - rewrite <- app_assoc. reflexivity.
Qed.

(** X11.  Every get operation is exactly one exchange, whatever the device
    sends and whether the call returns or raises: its query, which awaits
    no acknowledgement, is written, and then one frame of 2 or 3 bytes is
    read (the binary accessors) or one reply token (the frequencies);
    nothing else is written or read. *)
Theorem get_operations_single_exchange (op : operation) (self : Kusg245_250A) :
  is_query op = true ->
  exists (query : string) (reading : event),
    _is_expecting_acknowledgement query = false /\
    new_events self (snd (perform op self)) = [EvWrite query; reading] /\
    (reading = EvRead \/ reading = EvReadBytes 2 \/ reading = EvReadBytes 3).
Proof.
  intros Q.
  destruct op; try discriminate Q; cbn [perform]; rewrite discard_snd;
    unfold voltage_5v, voltage_32v, power_forward, power_reverse,
      external_enabled, bias_enabled, rf_enabled, pulse_mode_enabled,
      frequency_coarse, frequency_fine, phase_shift, reflection_limit;
    try (eexists; eexists; split; [|split;
           [apply control_get_events; reflexivity | auto]]; reflexivity);
    (eexists; eexists; split; [|split;
       [apply binary_query_events;
        [reflexivity
        | intros b s; unfold invalid_termination; track; contradiction]
       | auto]]; reflexivity).
Qed.

Lemma get_operations_single_exchange_witness :
  exists (query : string) (reading : event),
    _is_expecting_acknowledgement query = false /\
    new_events (instrument [x1e] 250)
      (snd (perform GetPowerForward (instrument [x1e] 250)))
    = [EvWrite query; reading] /\
    (reading = EvRead \/ reading = EvReadBytes 2 \/ reading = EvReadBytes 3).
Proof.
  apply (get_operations_single_exchange GetPowerForward (instrument [x1e] 250)).
  reflexivity.
Defined.

(* ===================================================================== *)
(** * The framing message *)
(* ===================================================================== *)

(** X12.  The message of a framing error tells which byte arrived in place
    of the terminator: two frames whose last bytes differ never produce
    the same message. *)
Theorem framing_message_identifies_byte (b b' : list byte) (x x' : byte) :
  last_byte b = Ok x ->
  last_byte b' = Ok x' ->
  _err_msg_invalid_termination_character b
  = _err_msg_invalid_termination_character b' ->
  x = x'.
Proof.
  unfold _err_msg_invalid_termination_character. intros -> -> E.
  injection E as E.
  assert (D : framing_messages_differ = true) by (vm_compute; reflexivity).
  unfold framing_messages_differ in D.
  pose proof (Byte.to_N_bounded x) as Bx.
  pose proof (Byte.to_N_bounded x') as Bx'.
  pose proof (forallb_zrange _ 0 256 D (Z.of_N (Byte.to_N x)) ltac:(lia)) as D1.
  cbv beta in D1.
  pose proof (forallb_zrange _ 0 256 D1 (Z.of_N (Byte.to_N x')) ltac:(lia)) as D2.
  cbv beta in D2. rewrite !N2Z.id in D2.
  unfold hex in D2. rewrite E, String.eqb_refl in D2. simpl in D2.
  apply Z.eqb_eq in D2.
  assert (N : Byte.to_N x = Byte.to_N x') by lia.
  pose proof (Byte.of_to_N x) as O. rewrite N, Byte.of_to_N in O.
  injection O as O. symmetry. exact O.
Qed.

Lemma framing_message_identifies_byte_witness :
  _err_msg_invalid_termination_character [x1e; x0a]
  = _err_msg_invalid_termination_character [x0a]
  /\ x0a = x0a.
Proof.
  split; [reflexivity|].
  exact (framing_message_identifies_byte [x1e; x0a] [x0a] x0a x0a
           eq_refl eq_refl eq_refl).
Defined.
